(** * Air-quality dashboard: aggregation, refresh and prediction pipeline

    A shallow embedding of [dashboard_calidad_aire.py] (and of its earlier
    revision without the prediction tab) together with the properties its
    specification states about it.

    Conventions of the embedding:
    - a pandas [DataFrame] of readings is a [list reading], in row order;
    - a nullable column cell is an [option]; the float64 column [aqi] holds
      NaN exactly where the SQL value is NULL, so it is an [option Q] as a
      column and a [pyfloat] once it is taken out as a scalar;
    - finite floats are exact rationals ([Q]): rounding of IEEE doubles is
      not modelled, the special values (NaN and the two infinities) are;
    - a call that may raise returns an [outcome];
    - the Streamlit calls that only draw are events of a trace. *)

From Stdlib Require Import QArith Qabs Lqa.
From stdpp Require Import gmap strings list fin_maps sorting.

Open Scope string_scope.

(** ** Python values *)

(** A Python [float]: the finite ones, the infinities and NaN. *)
Inductive pyfloat : Type :=
  | NegInf
  | Fin (q : Q)
  | PosInf
  | NaN.

(** The objects that reach the functions below. *)
Inductive pyval : Type :=
  | PyNone
  | PyFloat (f : pyfloat)
  | PyStr (s : string).

(** The result of a call: a value, or an exception with its message. *)
Inductive outcome (A : Type) : Type :=
  | Return (a : A)
  | Raises (e : string).
Arguments Return {A} a.
Arguments Raises {A} e.

(** Sequencing of calls: the first exception aborts what follows. *)
#[global] Instance outcome_bind : MBind outcome := λ A B k m,
  match m with
  | Return a => k a
  | Raises e => Raises e
  end.

(** [a <= b] on floats: every comparison with NaN is false. *)
Definition fle (a b : pyfloat) : bool :=
  match a, b with
  | NaN, _ | _, NaN => false
  | NegInf, _ => true
  | _, PosInf => true
  | Fin x, Fin y => Qle_bool x y
  | _, _ => false
  end.

(** [a < b] on floats. *)
Definition flt (a b : pyfloat) : bool :=
  match a, b with
  | NaN, _ | _, NaN => false
  | PosInf, _ => false
  | _, NegInf => false
  | Fin x, Fin y => negb (Qle_bool y x)
  | _, _ => true
  end.

(** [a - b]: opposite infinities cancel to NaN. *)
Definition fsub (a b : pyfloat) : pyfloat :=
  match a, b with
  | NaN, _ | _, NaN => NaN
  | PosInf, PosInf | NegInf, NegInf => NaN
  | PosInf, _ | _, NegInf => PosInf
  | NegInf, _ | _, PosInf => NegInf
  | Fin x, Fin y => Fin (x - y)
  end.

(** [a + b]. *)
Definition fadd (a b : pyfloat) : pyfloat :=
  match a, b with
  | NaN, _ | _, NaN => NaN
  | PosInf, NegInf | NegInf, PosInf => NaN
  | PosInf, _ | _, PosInf => PosInf
  | NegInf, _ | _, NegInf => NegInf
  | Fin x, Fin y => Fin (x + y)
  end.

(** [abs(a)]. *)
Definition fabs (a : pyfloat) : pyfloat :=
  match a with
  | NaN => NaN
  | NegInf | PosInf => PosInf
  | Fin x => Fin (Qabs x)
  end.

(** [a / 2]. *)
Definition fhalf (a : pyfloat) : pyfloat :=
  match a with
  | Fin x => Fin (x / 2)
  | other => other
  end.

(** [pd.isna] on a scalar. *)
Definition pd_isna (v : pyval) : bool :=
  match v with
  | PyNone | PyFloat NaN => true
  | _ => false
  end.

(** [v is None]. *)
Definition is_None (v : pyval) : bool :=
  match v with
  | PyNone => true
  | _ => false
  end.

(** [v <= c] for a numeric literal [c]: ordering a [str] or [None] against
    a number raises [TypeError]. *)
Definition py_le (v : pyval) (c : Q) : outcome bool :=
  match v with
  | PyFloat f => Return (fle f (Fin c))
  | PyNone => Raises "TypeError: '<=' not supported between instances of 'NoneType' and 'int'"
  | PyStr _ => Raises "TypeError: '<=' not supported between instances of 'str' and 'int'"
  end.

(** ** Category classifier *)

(** [get_aqi_category_info(aqi)]: name, colour and symbol of the band. *)
Definition get_aqi_category_info (aqi : pyval) : outcome (string * string * string) :=
  if pd_isna aqi || is_None aqi then Return ("Unknown", "#808080", "⚪")
  else
    c50 ← py_le aqi 50;
    if (c50 : bool) then Return ("Good", "#00E400", "🟢")
    else
      c100 ← py_le aqi 100;
      if (c100 : bool) then Return ("Moderate", "#FFFF00", "🟡")
      else
        c150 ← py_le aqi 150;
        if (c150 : bool) then Return ("Unhealthy for Sensitive Groups", "#FF7E00", "🟠")
        else
          c200 ← py_le aqi 200;
          if (c200 : bool) then Return ("Unhealthy", "#FF0000", "🔴")
          else
            c300 ← py_le aqi 300;
            if (c300 : bool) then Return ("Very Unhealthy", "#8F3F97", "🟣")
            else Return ("Hazardous", "#7E0023", "🟤").

(** The severity order of the band names, least severe first. [Unknown]
    has no rank. *)
Definition severity_rank (name : string) : option nat :=
  if String.eqb name "Good" then Some 0
  else if String.eqb name "Moderate" then Some 1
  else if String.eqb name "Unhealthy for Sensitive Groups" then Some 2
  else if String.eqb name "Unhealthy" then Some 3
  else if String.eqb name "Very Unhealthy" then Some 4
  else if String.eqb name "Hazardous" then Some 5
  else None.

(** The rank of a classification result. *)
Definition rank_of (r : outcome (string * string * string)) : option nat :=
  match r with
  | Return (name, _, _) => severity_rank name
  | Raises _ => None
  end.

(** The inputs the classifier is specified on: numbers and null. *)
Definition numeric_or_null (v : pyval) : Prop :=
  match v with
  | PyNone | PyFloat _ => True
  | PyStr _ => False
  end.

(** ** Readings *)

(** One row of the table [mediciones], with the columns that
    [fetch_latest_readings] selects. [fecha] is seconds since the epoch.
    The key and the timestamp are never NULL; the other cells may be. *)
Record reading : Type := mk_reading {
  row_id : Z;
  fecha : Z;
  ciudad : option string;
  estado : option string;
  latitud : option Q;
  longitud : option Q;
  contaminante : option string;
  aqi : option Q;
  categoria : option string
}.

(** ** Filter engine *)

(** The filter block of the dashboard loop. [df[df[col] == sel]] keeps the
    rows whose cell equals [sel]; a null cell equals no string. *)
Definition apply_filters (df : list reading)
    (estado_seleccionado contaminante_seleccionado : string) : list reading :=
  let df_filtered := df in
  let df_filtered :=
    if decide (estado_seleccionado ≠ "Todos")
    then filter (λ r, estado r = Some estado_seleccionado) df_filtered
    else df_filtered in
  let df_filtered :=
    if decide (contaminante_seleccionado ≠ "Todos")
    then filter (λ r, contaminante r = Some contaminante_seleccionado) df_filtered
    else df_filtered in
  df_filtered.

(** What a selector lets through: everything for the sentinel, else the
    rows whose cell is the selected value. *)
Definition selects (sel : string) (cell : option string) : Prop :=
  sel = "Todos" ∨ cell = Some sel.

#[global] Instance selects_dec sel cell : Decision (selects sel cell).
Proof. unfold selects. apply _. Defined.

(** ** Aggregator: overall metrics *)

(** Number of cells that are not null. *)
Definition count_notna {A : Type} (col : list (option A)) : nat :=
  length col - length (filter (λ x, x = None) col).

(** Sum of a float column with the null cells masked to zero. *)
Definition nansum (col : list (option Q)) : Q :=
  foldl (λ acc x, match x with Some q => (acc + q)%Q | None => acc end) 0%Q col.

(** [Series.mean()]: the masked sum over the count of valid cells, NaN
    when no cell is valid. *)
Definition series_mean (col : list (option Q)) : pyfloat :=
  let count := count_notna col in
  if decide (count = 0) then NaN
  else Fin (nansum col / inject_Z (Z.of_nat count)).

(** The larger of two floats that are not NaN. *)
Definition fmax (a b : pyfloat) : pyfloat := if fle a b then b else a.

(** The fill value of a maximum: minus infinity in place of a null cell. *)
Definition fill_neg_inf (x : option Q) : pyfloat :=
  match x with
  | Some q => Fin q
  | None => NegInf
  end.

(** [Series.max()]: the null cells are filled with minus infinity, the
    maximum is taken, and the result is nulled out when no cell is valid. *)
Definition series_max (col : list (option Q)) : pyfloat :=
  let filled := fill_neg_inf <$> col in
  let result := foldl fmax NegInf filled in
  if decide (count_notna col = 0) then NaN else result.

(** [Series.unique()]: the values in order of first appearance. *)
Definition series_unique {A : Type} `{EqDecision A} (col : list A) : list A :=
  foldl (λ seen x, if decide (x ∈ seen) then seen else (seen ++ [x])%list) [] col.

(** The values of the cells that are not null, in order. *)
Definition dropna {A : Type} (col : list (option A)) : list A := omap (λ x, x) col.

(** [Series.nunique()]: the number of unique values, null left out. *)
Definition series_nunique (col : list (option string)) : nat :=
  length (dropna (series_unique col)).

(** The five numbers of the metrics row. *)
Record metrics : Type := mk_metrics {
  avg_aqi : pyfloat;
  max_aqi : pyfloat;
  total_lecturas : nat;
  ciudades : nat;
  estados : nat
}.

(** The metrics block of the dashboard loop. *)
Definition compute_metrics (df_filtered : list reading) : metrics :=
  {| avg_aqi := series_mean (aqi <$> df_filtered);
     max_aqi := series_max (aqi <$> df_filtered);
     total_lecturas := length df_filtered;
     ciudades := series_nunique (ciudad <$> df_filtered);
     estados := series_nunique (estado <$> df_filtered) |}.

(** Sum of a list of rationals. *)
Definition Qsum (l : list Q) : Q := foldr Qplus 0%Q l.

(** ** Aggregator: category distribution *)

(** One more occurrence of [k] in a tally kept in order of first
    appearance. *)
Fixpoint bump (k : string) (counts : list (string * nat)) : list (string * nat) :=
  match counts with
  | [] => [(k, 1)]
  | (k', n) :: rest =>
      if decide (k = k') then (k', S n) :: rest else (k', n) :: bump k rest
  end.

(** Occurrences of each value of a column, null cells left out. *)
Definition tally (col : list (option string)) : list (string * nat) :=
  foldl (λ counts x, match x with Some k => bump k counts | None => counts end) [] col.

(** Insertion into a list sorted by count, largest first; among equal
    counts the inserted pair goes first. *)
Fixpoint insert_by_count (p : string * nat) (sorted : list (string * nat))
    : list (string * nat) :=
  match sorted with
  | [] => [p]
  | q :: rest =>
      if decide (q.2 ≤ p.2)%nat then p :: q :: rest else q :: insert_by_count p rest
  end.

(** Sort by count, largest first, keeping the order of equal counts. *)
Definition sort_by_count (counts : list (string * nat)) : list (string * nat) :=
  foldr insert_by_count [] counts.

(** [Series.value_counts()]: the tally of the non-null values, most
    frequent first. (The order pandas gives to equal counts depends on its
    version; nothing below rests on it.) *)
Definition value_counts (col : list (option string)) : list (string * nat) :=
  sort_by_count (tally col).

(** [count / len(df_filtered) * 100]. *)
Definition pct (count : nat) (df_filtered : list reading) : Q :=
  (inject_Z (Z.of_nat count) / inject_Z (Z.of_nat (length df_filtered)) * 100)%Q.

(** The loop over [categoria_counts.items()]: label, count and percentage
    of each line written. *)
Definition categoria_lines (df_filtered : list reading) : list (string * nat * Q) :=
  let categoria_counts := value_counts (categoria <$> df_filtered) in
  (λ item, (item.1, item.2, pct item.2 df_filtered)) <$> categoria_counts.

(** Number of cells of a column that hold the value [k]. *)
Definition occurrences (k : string) (col : list (option string)) : nat :=
  length (filter (λ x, x = Some k) col).

(** The count a tally records for [k], zero when [k] is not in it. *)
Fixpoint count_for (k : string) (counts : list (string * nat)) : nat :=
  match counts with
  | [] => 0
  | (k', n) :: rest => if decide (k = k') then n else count_for k rest
  end.

(** ** Aggregator: latest reading per city *)

(** Insertion into a list sorted by timestamp, oldest first; among equal
    timestamps the inserted row goes first. *)
Fixpoint insert_by_fecha (r : reading) (sorted : list reading) : list reading :=
  match sorted with
  | [] => [r]
  | x :: rest =>
      if decide (fecha r ≤ fecha x)%Z then r :: x :: rest
      else x :: insert_by_fecha r rest
  end.

(** The order of the sort: [a] is not after [b]. *)
Definition not_after (a b : reading) : Prop := (fecha a ≤ fecha b)%Z.

(** [df.sort_values('fecha')]: ascending, rows of equal timestamp kept in
    their input order. *)
Definition sort_values_fecha (df : list reading) : list reading :=
  foldr insert_by_fecha [] df.

(** Insertion into a sorted list of group keys. *)
Fixpoint insert_key (k : string) (sorted : list string) : list string :=
  match sorted with
  | [] => [k]
  | x :: rest => if String.leb k x then k :: x :: rest else x :: insert_key k rest
  end.

(** The keys of [groupby('ciudad')]: the cities that occur, sorted; rows
    with a null city belong to no group. *)
Definition group_keys (df : list reading) : list string :=
  foldr insert_key [] (dropna (series_unique (ciudad <$> df))).

(** The last cell of a column that is not null. *)
Definition last_valid {A : Type} (cells : list (option A)) : option A :=
  last (dropna cells).

(** [GroupBy.last()] on the group of city [c]: column by column, the last
    cell of the group that is not null. [row_id] and [fecha] are never
    null, so theirs are those of the last row. *)
Definition group_last (c : string) (group : list reading) : option reading :=
  r ← last group;
  Some {| row_id := row_id r;
          fecha := fecha r;
          ciudad := Some c;
          estado := last_valid (estado <$> group);
          latitud := last_valid (latitud <$> group);
          longitud := last_valid (longitud <$> group);
          contaminante := last_valid (contaminante <$> group);
          aqi := last_valid (aqi <$> group);
          categoria := last_valid (categoria <$> group) |}.

(** [df_filtered.sort_values('fecha').groupby('ciudad').last().reset_index()] *)
Definition df_map (df_filtered : list reading) : list reading :=
  let sorted := sort_values_fecha df_filtered in
  omap (λ c, group_last c (filter (λ r, ciudad r = Some c) sorted)) (group_keys sorted).

(** A row with no null cell. *)
Definition complete (r : reading) : Prop :=
  is_Some (ciudad r) ∧ is_Some (estado r) ∧ is_Some (latitud r) ∧
  is_Some (longitud r) ∧ is_Some (contaminante r) ∧ is_Some (aqi r) ∧
  is_Some (categoria r).

(** ** Refresh controller *)

(** The sidebar settings the dashboard loop reads. *)
Record config : Type := mk_config {
  auto_refresh : bool;
  refresh_interval : Z;
  time_window : Z;
  estado_seleccionado : string;
  contaminante_seleccionado : string
}.

(** What one pass of the loop draws from the filtered readings: the
    metrics row, the map rows, the category lines and the table rows. *)
Record summary_view : Type := mk_summary_view {
  view_metrics : metrics;
  view_map : list reading;
  view_categorias : list (string * nat * Q);
  view_table : list reading
}.

(** The aggregation of one pass. *)
Definition aggregate (df_filtered : list reading) : summary_view :=
  {| view_metrics := compute_metrics df_filtered;
     view_map := df_map df_filtered;
     view_categorias := categoria_lines df_filtered;
     view_table := take 20 df_filtered |}.

(** What the loop does that can be seen from outside. *)
Inductive event : Type :=
  | Fetch (hours : Z)
  | Warning (msg : string)
  | Publish (view : summary_view)
  | Sleep (seconds : Z)
  | Rerun.

(** How a pass of the loop body ends: [break], or [st.rerun()], which
    ends the script run and starts the script again. *)
Inductive control : Type :=
  | Break
  | Restart.

(** Where the controller stands when a run is over. *)
Inductive controller_state : Type :=
  | Empty
  | Published
  | Sleeping.

(** One pass of the body of [while True], on the rows that
    [fetch_latest_readings(hours=time_window)] returned. *)
Definition loop_body (cfg : config) (df : list reading) : list event * control :=
  let fetched := Fetch (time_window cfg) in
  if decide (df = []) then
    ([fetched; Warning "⚠️ No hay datos disponibles para el período seleccionado"], Break)
  else
    let df_filtered :=
      apply_filters df (estado_seleccionado cfg) (contaminante_seleccionado cfg) in
    if decide (df_filtered = []) then
      ([fetched; Warning "⚠️ No hay datos que coincidan con los filtros seleccionados"], Break)
    else
      let published := Publish (aggregate df_filtered) in
      if negb (auto_refresh cfg) then ([fetched; published], Break)
      else ([fetched; published; Sleep (refresh_interval cfg); Rerun], Restart).

(** The events that publish a view, and those that begin a pass. *)
Definition is_publish (e : event) : bool :=
  match e with
  | Publish _ => true
  | _ => false
  end.


(** The state a pass leaves the controller in. *)
Definition state_after (pass : list event * control) : controller_state :=
  match pass with
  | (_, Restart) => Sleeping
  | (events, Break) =>
      if decide (Exists (λ e, is_publish e) events) then Published else Empty
  end.

(** The dashboard from tick [tick] on, for at most [fuel] passes. The
    store answers the fetch of pass [n] with [store n]. The result is the
    trace and the state reached; [Sleeping] says that the passes ran out
    with the loop still going. *)
Fixpoint run (fuel : nat) (cfg : config) (store : nat → list reading) (tick : nat)
    : list event * controller_state :=
  match fuel with
  | O => ([], Sleeping)
  | S fuel' =>
      let pass := loop_body cfg (store tick) in
      match pass.2 with
      | Break => (pass.1, state_after pass)
      | Restart =>
          let rest := run fuel' cfg store (S tick) in
          ((pass.1 ++ rest.1)%list, rest.2)
      end
  end.




(** ** Prediction *)

(** The one-row frame that model 1 is given. *)
Record model1_input : Type := mk_model1_input {
  m1_ciudad : string;
  m1_estado : string;
  m1_contaminante : string;
  m1_latitud : Q;
  m1_longitud : Q
}.

(** The one-row frame that model 2 is given. *)
Record model2_input : Type := mk_model2_input {
  m2_ciudad : string;
  m2_estado : string;
  m2_contaminante : string;
  m2_latitud : Q;
  m2_longitud : Q;
  m2_categoria : string;
  m2_fecha : Z
}.

(** What [load_ml_models] returns: each model is a loaded pipeline, whose
    [predict(...)[0]] gives a number or raises, or [None]. *)
Record models : Type := mk_models {
  modelo1 : option (model1_input → outcome pyfloat);
  modelo2 : option (model2_input → outcome pyfloat)
}.

(** [categoria if categoria else 'Good']: [None] and the empty string are
    both false. *)
Definition categoria_or_default (categoria : option string) : string :=
  match categoria with
  | Some c => if decide (c = "") then "Good" else c
  | None => "Good"
  end.

(** [fecha if fecha else datetime.now()]. *)
Definition fecha_or_now (fecha : option Z) (now : Z) : Z :=
  match fecha with
  | Some f => f
  | None => now
  end.

(** The frame [data_modelo1]. *)
Definition model1_frame (ciudad estado contaminante : string) (latitud longitud : Q)
    : model1_input :=
  mk_model1_input ciudad estado contaminante latitud longitud.

(** The frame [data_modelo2]. *)
Definition model2_frame (ciudad estado contaminante : string) (latitud longitud : Q)
    (fecha : option Z) (categoria : option string) (now : Z) : model2_input :=
  mk_model2_input ciudad estado contaminante latitud longitud
    (categoria_or_default categoria) (fecha_or_now fecha now).

(** [predict_aqi]: the dictionary of predictions, and with it the list of
    the models whose [predict] was called, in the order of the calls. *)
Definition predict_aqi (models : models) (ciudad estado contaminante : string)
    (latitud longitud : Q) (fecha : option Z) (categoria : option string) (now : Z)
    : gmap string pyval * list string :=
  let data_modelo1 := model1_frame ciudad estado contaminante latitud longitud in
  let data_modelo2 :=
    model2_frame ciudad estado contaminante latitud longitud fecha categoria now in
  let predictions : gmap string pyval := ∅ in
  let calls : list string := [] in
  let '(predictions, calls) :=
    match modelo1 models with
    | Some model =>
        match model data_modelo1 with
        | Return pred1 =>
            (<["modelo1" := PyFloat pred1]> predictions, (calls ++ ["modelo1"])%list)
        | Raises e =>
            (<["modelo1_error" := PyStr e]> (<["modelo1" := PyNone]> predictions),
             (calls ++ ["modelo1"])%list)
        end
    | None => (predictions, calls)
    end in
  let '(predictions, calls) :=
    match modelo2 models with
    | Some model =>
        match model data_modelo2 with
        | Return pred2 =>
            (<["modelo2" := PyFloat pred2]> predictions, (calls ++ ["modelo2"])%list)
        | Raises e =>
            (<["modelo2_error" := PyStr e]> (<["modelo2" := PyNone]> predictions),
             (calls ++ ["modelo2"])%list)
        end
    | None => (predictions, calls)
    end in
  (predictions, calls).

(** What the call of a model leaves in the dictionary under the model's
    key. *)
Definition entry_of (result : outcome pyfloat) : option pyval :=
  match result with
  | Return pred => Some (PyFloat pred)
  | Raises _ => Some PyNone
  end.

(** What the call of a model leaves under the model's error key. *)
Definition error_of (result : outcome pyfloat) : option pyval :=
  match result with
  | Return _ => None
  | Raises e => Some (PyStr e)
  end.

(** The keys of the models that are loaded. *)
Definition loaded_keys (models : models) : list string :=
  (match modelo1 models with Some _ => ["modelo1"] | None => [] end ++
   match modelo2 models with Some _ => ["modelo2"] | None => [] end)%list.

(** [d.get(k)]: the value under [k], [None] when there is none. *)
Definition dict_get (d : gmap string pyval) (k : string) : pyval :=
  default PyNone (d !! k).

(** The comparison block: mean, difference and agreement of the two
    predictions, when neither is [None]. The values under the two keys are
    floats or [None], never strings. *)
Definition comparison (predictions : gmap string pyval)
    : option (pyfloat * pyfloat * string) :=
  match dict_get predictions "modelo1", dict_get predictions "modelo2" with
  | PyFloat p1, PyFloat p2 =>
      let diff := fabs (fsub p1 p2) in
      let avg_pred := fhalf (fadd p1 p2) in
      let agreement :=
        if flt diff (Fin 10) then "Alta"
        else if flt diff (Fin 20) then "Media" else "Baja" in
      Some (avg_pred, diff, agreement)
  | _, _ => None
  end.

(** What the prediction tab comes to. *)
Inductive tab_outcome : Type :=
  | Unavailable
  | Waiting
  | Predicted (predictions : gmap string pyval)
              (compared : option (pyfloat * pyfloat * string)).

(** The prediction tab: the availability check, then, when the button is
    pressed, the predictions and their comparison. With the outcome comes
    the list of the models that were called. *)
Definition predicciones_tab (models : models) (clicked : bool)
    (pred_ciudad pred_estado pred_contaminante : string)
    (pred_latitud pred_longitud : Q) (selected_categoria : option string) (now : Z)
    : tab_outcome * list string :=
  if decide (modelo1 models = None ∧ modelo2 models = None) then (Unavailable, [])
  else
    let pred_categoria :=
      match modelo2 models with
      | Some _ => selected_categoria
      | None => None
      end in
    if clicked then
      let '(predictions, calls) :=
        predict_aqi models pred_ciudad pred_estado pred_contaminante
          pred_latitud pred_longitud None pred_categoria now in
      (Predicted predictions (comparison predictions), calls)
    else (Waiting, []).

(** ** Example data *)

(** Two readings of one city, one Good and one Moderate. *)
Definition austin_readings : list reading :=
  [ mk_reading 2 200 (Some "Austin") (Some "TX") None None (Some "O3") (Some 55%Q) (Some "Moderate");
    mk_reading 1 100 (Some "Austin") (Some "TX") None None (Some "O3") (Some 45%Q) (Some "Good") ].

(** Two readings, one of them without a category label. *)
Definition unlabelled_readings : list reading :=
  [ mk_reading 2 200 (Some "Austin") (Some "TX") None None (Some "O3") (Some 55%Q) None;
    mk_reading 1 100 (Some "Austin") (Some "TX") None None (Some "O3") (Some 45%Q) (Some "Good") ].

(** Two readings of one city; the newer one came without AQI and label. *)
Definition stale_aqi_readings : list reading :=
  [ mk_reading 2 200 (Some "Austin") (Some "TX") (Some 30.27%Q) (Some (-97.74)%Q)
      (Some "O3") None None;
    mk_reading 1 100 (Some "Austin") (Some "TX") (Some 30.27%Q) (Some (-97.74)%Q)
      (Some "O3") (Some 45%Q) (Some "Good") ].

(** A dashboard on the Austin readings, all states and pollutants. *)
Definition austin_config (auto : bool) : config :=
  mk_config auto 15 24 "Todos" "Todos".

(** A store with the Austin readings at the first two ticks and nothing
    in the window after that. *)
Definition draining_store (tick : nat) : list reading :=
  match tick with
  | 0 | 1 => austin_readings
  | _ => []
  end.

(** A model 1 whose encoder rejects the row, and models that answer 42
    and 58. *)
Definition failing_model1 : model1_input → outcome pyfloat :=
  λ _, Raises "Found unknown categories ['Austin'] in column 0 during transform".

Definition steady_model1 : model1_input → outcome pyfloat := λ _, Return (Fin 42).

Definition steady_model2 : model2_input → outcome pyfloat := λ _, Return (Fin 58).


(** ** The readings query *)

(** [WHERE fecha > NOW() - INTERVAL '{hours} hours'], with [now] the time
    of the query in seconds. *)
Definition in_window (now hours : Z) (r : reading) : Prop :=
  (now - hours * 3600 < fecha r)%Z.

#[global] Instance in_window_dec now hours r : Decision (in_window now hours r).
Proof. unfold in_window. apply _. Defined.

(** The order of [ORDER BY fecha DESC]: [a] is not before [b]. *)
Definition not_before (a b : reading) : Prop := (fecha b ≤ fecha a)%Z.

(** Insertion into a list sorted by timestamp, newest first. *)
Fixpoint insert_by_fecha_desc (r : reading) (sorted : list reading) : list reading :=
  match sorted with
  | [] => [r]
  | x :: rest =>
      if decide (fecha x ≤ fecha r)%Z then r :: x :: rest
      else x :: insert_by_fecha_desc r rest
  end.

(** [fetch_latest_readings(hours)] on the rows of [mediciones], for a call
    that reaches the database: the rows of the window, newest first. (The
    order SQL gives to rows of equal timestamp is not fixed; nothing below
    rests on it.) *)
Definition fetch_latest_readings (mediciones : list reading) (now hours : Z)
    : list reading :=
  foldr insert_by_fecha_desc [] (filter (in_window now hours) mediciones).

(** ** Sidebar selectors *)

(** [sorted(...)] on a list of strings. *)
Definition sorted_str (l : list string) : list string := foldr insert_key [] l.

(** [["Todos"] + sorted(df_all['estado'].dropna().unique().tolist())] *)
Definition estados_disponibles (df_all : list reading) : list string :=
  "Todos" :: sorted_str (series_unique (dropna (estado <$> df_all))).

(** [["Todos"] + sorted(df_all['contaminante'].dropna().unique().tolist())] *)
Definition contaminantes_disponibles (df_all : list reading) : list string :=
  "Todos" :: sorted_str (series_unique (dropna (contaminante <$> df_all))).

(** [sorted(...)] on a list of cells. Ordering [None] against anything
    raises [TypeError], and a sort of two or more items compares each of
    them with another; a list of fewer than two items is returned without
    any comparison. (The message of the exception names the types of the
    two items that were compared, in their order; it is left out.) *)
Definition sorted_cells (l : list (option string)) : outcome (list (option string)) :=
  match l with
  | [] | [_] => Return l
  | _ =>
      if decide (None ∈ l)
      then Raises "TypeError"
      else Return (Some <$> sorted_str (dropna l))
  end.

(** The options of the chart selector:
    [["Todos"] + sorted(df_filtered['contaminante'].unique().tolist())],
    where the null cells are not dropped. *)
Definition cont_options (df_filtered : list reading) : outcome (list (option string)) :=
  rest ← sorted_cells (series_unique (contaminante <$> df_filtered));
  Return (Some "Todos" :: rest).

(** ** Cards and table of a pass *)

(** A cell of the float column [aqi] taken out as a scalar. *)
Definition aqi_scalar (cell : option Q) : pyval :=
  match cell with
  | Some q => PyFloat (Fin q)
  | None => PyFloat NaN
  end.

(** Calls of [f] on the items of a list, in order; the first exception
    ends them. *)
Fixpoint map_outcome {A B : Type} (f : A → outcome B) (l : list A) : outcome (list B) :=
  match l with
  | [] => Return []
  | x :: rest =>
      y ← f x;
      ys ← map_outcome f rest;
      Return (y :: ys)
  end.

(** The first metric card: the mean with the symbol and name of its band.
    (The rendering of the number, [f"{avg_aqi:.0f}"], is left out.) *)
Definition aqi_promedio_card (df_filtered : list reading)
    : outcome (pyfloat * string * string) :=
  let avg_aqi := series_mean (aqi <$> df_filtered) in
  info ← get_aqi_category_info (PyFloat avg_aqi);
  let '(category, color, emoji) := info in
  Return (avg_aqi, emoji, category).

(** A row of the table of recent readings: the six columns kept, and the
    added column [Estado]. (The rendering of [fecha] by [strftime] is left
    out.) *)
Record table_row : Type := mk_table_row {
  t_fecha : Z;
  t_ciudad : option string;
  t_estado : option string;
  t_contaminante : option string;
  t_aqi : option Q;
  t_categoria : option string;
  t_Estado : string
}.

(** [df_filtered[[...]].head(20)] with the column
    [df_table['aqi'].apply(lambda x: get_aqi_category_info(x)[2])]. *)
Definition df_table (df_filtered : list reading) : outcome (list table_row) :=
  map_outcome
    (λ r, info ← get_aqi_category_info (aqi_scalar (aqi r));
          Return (mk_table_row (fecha r) (ciudad r) (estado r) (contaminante r)
                    (aqi r) (categoria r) info.2))
    (take 20 df_filtered).

(** [df_filtered['contaminante'] == cont], row by row: a null cell equals
    nothing, and nothing equals [None]. *)
Definition cell_is (cont : option string) (cell : option string) : Prop :=
  match cont with
  | Some c => cell = Some c
  | None => False
  end.

#[global] Instance cell_is_dec cont cell : Decision (cell_is cont cell).
Proof. destruct cont; cbn; apply _. Defined.

(** The block "Resumen por Contaminante" of the earlier revision: for each
    value of [df_filtered['contaminante'].unique()], the symbol of the mean
    AQI of its rows, the value, the mean and the number of rows. *)
Definition resumen_por_contaminante (df_filtered : list reading)
    : outcome (list (string * option string * pyfloat * nat)) :=
  map_outcome
    (λ cont,
       let df_cont := filter (λ r, cell_is cont (contaminante r)) df_filtered in
       let avg_aqi := series_mean (aqi <$> df_cont) in
       let count := length df_cont in
       info ← get_aqi_category_info (PyFloat avg_aqi);
       Return (info.2, cont, avg_aqi, count))
    (series_unique (contaminante <$> df_filtered)).

(** What a table row keeps of the filtered row it comes from. *)
Definition row_of (r : reading) (row : table_row) : Prop :=
  t_fecha row = fecha r ∧ t_ciudad row = ciudad r ∧ t_estado row = estado r ∧
  t_contaminante row = contaminante r ∧ t_aqi row = aqi r ∧
  t_categoria row = categoria r ∧
  (∃ name colour,
      get_aqi_category_info (aqi_scalar (aqi r)) = Return (name, colour, t_Estado row)) ∧
  (aqi r = None ↔ t_Estado row = "⚪").

(** ** Loading the models *)

(** The objects held by the dictionary of [load_ml_models]. *)
Inductive pyobj : Type :=
  | ObjNone
  | ObjStr (s : string)
  | ObjModel1 (m : model1_input → outcome pyfloat)
  | ObjModel2 (m : model2_input → outcome pyfloat).

(** The two model files when the script starts: [None] for a file that
    does not exist, else what [joblib.load] does with it, which is to
    return the pipeline or to raise. *)
Record model_files : Type := mk_model_files {
  modelo1_pkl : option (outcome (model1_input → outcome pyfloat));
  modelo2_pkl : option (outcome (model2_input → outcome pyfloat))
}.

(** [load_ml_models()]: the dictionary, and the messages given to
    [st.error]. The [try] block fills the dictionary in place, so what it
    stored before an exception is still there in the handler. *)
Definition load_ml_models (files : model_files) : gmap string pyobj * list string :=
  let models : gmap string pyobj := ∅ in
  let second (models : gmap string pyobj) : gmap string pyobj * option string :=
    match modelo2_pkl files with
    | Some (Return m) =>
        (<["modelo2_name" := ObjStr "XGBoost + IsolationForest"]>
           (<["modelo2" := ObjModel2 m]> models), None)
    | Some (Raises e) => (models, Some e)
    | None => (<["modelo2" := ObjNone]> models, None)
    end in
  let '(models, raised) :=
    match modelo1_pkl files with
    | Some (Return m) =>
        second (<["modelo1_name" := ObjStr "Random Forest"]>
                  (<["modelo1" := ObjModel1 m]> models))
    | Some (Raises e) => (models, Some e)
    | None => second (<["modelo1" := ObjNone]> models)
    end in
  match raised with
  | Some e =>
      (<["modelo2" := ObjNone]> (<["modelo1" := ObjNone]> models),
       ["Error cargando modelos: " +:+ e])
  | None => (models, [])
  end.

(** [models[k]]: the value under [k], or [KeyError]. *)
Definition dict_index (models : gmap string pyobj) (k : string) : outcome pyobj :=
  match models !! k with
  | Some v => Return v
  | None => Raises ("KeyError: '" +:+ k +:+ "'")
  end.

(** [o is None]. *)
Definition is_ObjNone (o : pyobj) : bool :=
  match o with
  | ObjNone => true
  | _ => false
  end.

(** The object that stands for a model that is loaded or not. *)
Definition obj_of_modelo1 (m : option (model1_input → outcome pyfloat)) : pyobj :=
  match m with
  | Some model => ObjModel1 model
  | None => ObjNone
  end.

Definition obj_of_modelo2 (m : option (model2_input → outcome pyfloat)) : pyobj :=
  match m with
  | Some model => ObjModel2 model
  | None => ObjNone
  end.

(** The two models of a dictionary as [predict_aqi] and the prediction tab
    read it: an entry that is a pipeline is a loaded model, and [None] is
    an absent one. (It is exact on the dictionaries in which the entries
    ["modelo1"] and ["modelo2"] are there and hold a pipeline or [None].) *)
Definition models_of (d : gmap string pyobj) : models :=
  {| modelo1 := match d !! "modelo1" with Some (ObjModel1 m) => Some m | _ => None end;
     modelo2 := match d !! "modelo2" with Some (ObjModel2 m) => Some m | _ => None end |}.

(** A line of the sidebar under "Modelos Disponibles":
    [st.success(f"✅ {name}")] or [st.error(msg)]. *)
Inductive status : Type :=
  | Success (name : pyobj)
  | Failure (msg : string).

(** The sidebar block of the prediction view. *)
Definition modelos_disponibles (models : gmap string pyobj) : outcome (list status) :=
  m1 ← dict_index models "modelo1";
  s1 ← (if is_ObjNone m1 then Return (Failure "❌ Modelo 1 no cargado")
        else name ← dict_index models "modelo1_name"; Return (Success name));
  m2 ← dict_index models "modelo2";
  s2 ← (if is_ObjNone m2 then Return (Failure "❌ Modelo 2 no cargado")
        else name ← dict_index models "modelo2_name"; Return (Success name));
  Return [s1; s2].

(** ** Result cards *)

(** What a result column shows: the card of a prediction, with the name of
    the model, the symbol and name of the band and the number, or an error
    line with its detail. (The rendering of the number is left out.) *)
Inductive card : Type :=
  | PredictionCard (name : pyobj) (symbol : string) (pred : pyval) (category : string)
  | ErrorCard (detail : pyval).

(** [predictions[k]]: the value under [k], or [KeyError]. *)
Definition predictions_index (predictions : gmap string pyval) (k : string)
    : outcome pyval :=
  match predictions !! k with
  | Some v => Return v
  | None => Raises ("KeyError: '" +:+ k +:+ "'")
  end.

(** One result column, for the keys of one model. *)
Definition result_card (models : gmap string pyobj) (predictions : gmap string pyval)
    (key name_key error_key : string) : outcome card :=
  if negb (is_None (dict_get predictions key)) then
    pred ← predictions_index predictions key;
    info ← get_aqi_category_info pred;
    name ← dict_index models name_key;
    Return (PredictionCard name info.2 pred info.1.1)
  else
    Return (ErrorCard (default (PyStr "Desconocido") (predictions !! error_key))).

(** The column of model 1 and the column of model 2. *)
Definition modelo1_card (models : gmap string pyobj) (predictions : gmap string pyval)
    : outcome card :=
  result_card models predictions "modelo1" "modelo1_name" "modelo1_error".

Definition modelo2_card (models : gmap string pyobj) (predictions : gmap string pyval)
    : outcome card :=
  result_card models predictions "modelo2" "modelo2_name" "modelo2_error".

(** ** More example data *)

(** Readings of which one has no pollutant. *)
Definition unnamed_pollutant_readings : list reading :=
  [ mk_reading 2 200 (Some "Austin") (Some "TX") None None None (Some 55%Q) (Some "Moderate");
    mk_reading 1 100 (Some "Austin") (Some "TX") None None (Some "O3") (Some 45%Q) (Some "Good") ].

(** A model 1 file that loads and a model 2 file that is corrupt. *)
Definition corrupt_modelo2 : model_files :=
  mk_model_files (Some (Return steady_model1)) (Some (Raises "invalid load key")).

(** Both files in place and loading. *)
Definition both_files : model_files :=
  mk_model_files (Some (Return steady_model1)) (Some (Return steady_model2)).

(** Two readings of Austin with every cell filled. *)
Definition complete_readings : list reading :=
  [ mk_reading 2 200 (Some "Austin") (Some "TX") (Some 30.27%Q) (Some (-97.74)%Q)
      (Some "O3") (Some 55%Q) (Some "Moderate");
    mk_reading 1 100 (Some "Austin") (Some "TX") (Some 30.27%Q) (Some (-97.74)%Q)
      (Some "O3") (Some 45%Q) (Some "Good") ].

(** ** The summary by state *)

(** A row of the result of [fetch_summary_by_state]. An aggregate of SQL
    is NULL when it has no value to work on. *)
Record state_summary : Type := mk_state_summary {
  s_estado : option string;
  s_total_lecturas : nat;
  s_aqi_promedio : option Q;
  s_aqi_maximo : option Q;
  s_aqi_minimo : option Q
}.

(** [AVG(aqi)]: the mean of the values that are not NULL. *)
Definition sql_avg (cells : list (option Q)) : option Q :=
  let values := dropna cells in
  if decide (values = []) then None
  else Some (Qsum values / inject_Z (Z.of_nat (length values)))%Q.

(** [MAX(aqi)] and [MIN(aqi)]: the greatest and the least of the values
    that are not NULL. *)
Definition sql_max (cells : list (option Q)) : option Q :=
  foldl (λ acc v, match acc with
                  | Some a => Some (if Qle_bool a v then v else a)
                  | None => Some v
                  end) None (dropna cells).

Definition sql_min (cells : list (option Q)) : option Q :=
  foldl (λ acc v, match acc with
                  | Some a => Some (if Qle_bool v a then v else a)
                  | None => Some v
                  end) None (dropna cells).

(** [ORDER BY aqi_promedio DESC]: whether [a] may stand before [b]. NULL
    sorts before every number in a descending order. *)
Definition promedio_desc (a b : state_summary) : bool :=
  match s_aqi_promedio a, s_aqi_promedio b with
  | None, _ => true
  | Some _, None => false
  | Some x, Some y => Qle_bool y x
  end.

Fixpoint insert_by_promedio (row : state_summary) (sorted : list state_summary)
    : list state_summary :=
  match sorted with
  | [] => [row]
  | x :: rest =>
      if promedio_desc row x then row :: x :: rest
      else x :: insert_by_promedio row rest
  end.

(** [fetch_summary_by_state(hours)], for a call that reaches the database:
    the readings of the window that have an AQI, grouped by state (the
    rows without a state forming one group), with the number of rows and
    the mean, greatest and least AQI of each group, highest mean first.
    (The order SQL gives to groups of equal mean is not fixed; nothing
    below rests on it.) *)
Definition fetch_summary_by_state (mediciones : list reading) (now hours : Z)
    : list state_summary :=
  let rows := filter (λ r, in_window now hours r ∧ aqi r ≠ None) mediciones in
  let groups := series_unique (estado <$> rows) in
  foldr insert_by_promedio []
    ((λ e, let group := filter (λ r, estado r = e) rows in
           mk_state_summary e (length group) (sql_avg (aqi <$> group))
             (sql_max (aqi <$> group)) (sql_min (aqi <$> group))) <$> groups).

(** The bar chart of the ranking: drawn when the summary is not empty,
    from [summary_state.head(10)]. *)
Definition ranking_chart (summary_state : list state_summary)
    : option (list state_summary) :=
  if decide (summary_state = []) then None else Some (take 10 summary_state).

(** * Properties *)

(** ** Category classifier *)

Section Classifier.

Local Open Scope Q_scope.

Lemma Qle_bool_true (x y : Q) : Qle_bool x y = true → x <= y.
Proof. apply Qle_bool_iff. Qed.

Lemma Qle_bool_false (x y : Q) : Qle_bool x y = false → y < x.
Proof.
  intros Hb. apply Qnot_le_lt. intros Hle.
  apply Qle_bool_iff in Hle. congruence.
Qed.

Lemma Qle_bool_intro (x y : Q) : x <= y → Qle_bool x y = true.
Proof. apply Qle_bool_iff. Qed.

Lemma Qle_bool_elim (x y : Q) : y < x → Qle_bool x y = false.
Proof.
  intros Hlt. destruct (Qle_bool x y) eqn:Hb; [|done].
  apply Qle_bool_true in Hb. lra.
Qed.

(** The classifier on a finite number, as a cascade of tests. *)
Lemma classify_Fin (q : Q) :
  get_aqi_category_info (PyFloat (Fin q)) =
    Return (if Qle_bool q 50 then ("Good", "#00E400", "🟢")
            else if Qle_bool q 100 then ("Moderate", "#FFFF00", "🟡")
            else if Qle_bool q 150 then ("Unhealthy for Sensitive Groups", "#FF7E00", "🟠")
            else if Qle_bool q 200 then ("Unhealthy", "#FF0000", "🔴")
            else if Qle_bool q 300 then ("Very Unhealthy", "#8F3F97", "🟣")
            else ("Hazardous", "#7E0023", "🟤"))%string.
Proof.
  unfold get_aqi_category_info; cbn.
  repeat (case (Qle_bool q _); cbn; [reflexivity|]).
  reflexivity.
Qed.

(** Rewrites every threshold test on [q] to its truth value, given the
    position of [q] among the thresholds. *)
Ltac settle_tests :=
  repeat first
    [ rewrite Qle_bool_intro by lra
    | rewrite Qle_bool_elim by lra ].

(** C1. The classifier maps null and NaN to Unknown and every number to
    the band of the table, each band closed at its upper end: at most 50
    is Good, above 50 up to 100 Moderate, above 100 up to 150 Unhealthy
    for Sensitive Groups, above 150 up to 200 Unhealthy, above 200 up to
    300 Very Unhealthy, above 300 Hazardous, with the colour and symbol of
    the table; so 50 is Good, 50.01 Moderate, 300 Very Unhealthy and
    300.01 Hazardous. *)
Theorem classifier_bands :
  get_aqi_category_info PyNone = Return ("Unknown", "#808080", "⚪")%string ∧
  get_aqi_category_info (PyFloat NaN) = Return ("Unknown", "#808080", "⚪")%string ∧
  (∀ q : Q,
     (q <= 50 →
      get_aqi_category_info (PyFloat (Fin q))
      = Return ("Good", "#00E400", "🟢")%string) ∧
     (50 < q <= 100 →
      get_aqi_category_info (PyFloat (Fin q))
      = Return ("Moderate", "#FFFF00", "🟡")%string) ∧
     (100 < q <= 150 →
      get_aqi_category_info (PyFloat (Fin q))
      = Return ("Unhealthy for Sensitive Groups", "#FF7E00", "🟠")%string) ∧
     (150 < q <= 200 →
      get_aqi_category_info (PyFloat (Fin q))
      = Return ("Unhealthy", "#FF0000", "🔴")%string) ∧
     (200 < q <= 300 →
      get_aqi_category_info (PyFloat (Fin q))
      = Return ("Very Unhealthy", "#8F3F97", "🟣")%string) ∧
     (300 < q →
      get_aqi_category_info (PyFloat (Fin q))
      = Return ("Hazardous", "#7E0023", "🟤")%string)) ∧
  get_aqi_category_info (PyFloat NegInf) = Return ("Good", "#00E400", "🟢")%string ∧
  get_aqi_category_info (PyFloat PosInf) = Return ("Hazardous", "#7E0023", "🟤")%string ∧
  get_aqi_category_info (PyFloat (Fin 50)) = Return ("Good", "#00E400", "🟢")%string ∧
  get_aqi_category_info (PyFloat (Fin 50.01)) = Return ("Moderate", "#FFFF00", "🟡")%string ∧
  get_aqi_category_info (PyFloat (Fin 300)) = Return ("Very Unhealthy", "#8F3F97", "🟣")%string ∧
  get_aqi_category_info (PyFloat (Fin 300.01)) = Return ("Hazardous", "#7E0023", "🟤")%string.
Proof.
  split_and!; try reflexivity.
  intros q. split_and!; intros Hq; rewrite classify_Fin; settle_tests; reflexivity.
Qed.

(** The band of 75 is Moderate, read off the table. *)
Lemma classifier_bands_witness :
  50 < 75 <= 100 ∧
  get_aqi_category_info (PyFloat (Fin 75)) = Return ("Moderate", "#FFFF00", "🟡")%string.
Proof.
  assert (H : 50 < 75 <= 100) by (split; [reflexivity | discriminate]).
  split; [exact H|].
  destruct classifier_bands as (_ & _ & Hband & _).
  destruct (Hband 75) as (_ & Hmod & _).
  exact (Hmod H).
Defined.

(** Every number has a ranked band. *)
Lemma rank_of_float (f : pyfloat) :
  f ≠ NaN → ∃ r : nat, rank_of (get_aqi_category_info (PyFloat f)) = Some r.
Proof.
  destruct f as [|q| |]; intros Hf; [by exists 0%nat| |by exists 5%nat|done].
  rewrite classify_Fin.
  repeat (destruct (Qle_bool q _); [by eexists|]).
  by eexists.
Qed.

(** C9. The classifier returns a band, raising nothing, on every number
    (negative, huge, infinite or NaN) and on null; and over the numbers the
    severity rank of the band never decreases when the input grows. *)
Theorem classifier_total_monotone :
  (∀ v : pyval, numeric_or_null v →
     ∃ band : string * string * string, get_aqi_category_info v = Return band) ∧
  (∀ v1 v2 : pyfloat, fle v1 v2 = true →
     ∃ r1 r2 : nat,
       rank_of (get_aqi_category_info (PyFloat v1)) = Some r1 ∧
       rank_of (get_aqi_category_info (PyFloat v2)) = Some r2 ∧
       (r1 ≤ r2)%nat).
Proof.
  split.
  - intros [|[|q| |]|s] Hv; try done; try (by eexists).
    rewrite classify_Fin. by eexists.
  - intros v1 v2 Hle.
    destruct v1 as [|q1| |], v2 as [|q2| |]; try discriminate Hle.
    + exists 0%nat, 0%nat. by split_and!.
    + destruct (rank_of_float (Fin q2)) as [r2 Hr2]; [done|].
      exists 0%nat, r2. split_and!; [done|done|lia].
    + exists 0%nat, 5%nat. split_and!; [done|done|lia].
    + cbn in Hle. apply Qle_bool_true in Hle.
      rewrite !classify_Fin.
      destruct (Qle_bool q1 50) eqn:A50;
        [|destruct (Qle_bool q1 100) eqn:A100;
          [|destruct (Qle_bool q1 150) eqn:A150;
            [|destruct (Qle_bool q1 200) eqn:A200;
              [|destruct (Qle_bool q1 300) eqn:A300]]]];
      (destruct (Qle_bool q2 50) eqn:B50;
        [|destruct (Qle_bool q2 100) eqn:B100;
          [|destruct (Qle_bool q2 150) eqn:B150;
            [|destruct (Qle_bool q2 200) eqn:B200;
              [|destruct (Qle_bool q2 300) eqn:B300]]]]);
      repeat match goal with
             | H : Qle_bool _ _ = true |- _ => apply Qle_bool_true in H
             | H : Qle_bool _ _ = false |- _ => apply Qle_bool_false in H
             end;
      try (exfalso; lra);
      (eexists _, _; split_and!; [reflexivity|reflexivity|cbn; lia]).
    + destruct (rank_of_float (Fin q1)) as [r1 Hr1]; [done|].
      exists r1, 5%nat. split_and!; [done|done|].
      revert Hr1. rewrite classify_Fin.
      repeat (destruct (Qle_bool q1 _); [cbn; intros [= <-]; lia|]).
      cbn; intros [= <-]; lia.
    + exists 5%nat, 5%nat. by split_and!.
Qed.

(** Between 42 and 160 the rank rises from Good to Unhealthy. *)
Lemma classifier_total_monotone_witness :
  (∃ band, get_aqi_category_info PyNone = Return band) ∧
  (∃ r1 r2 : nat,
     rank_of (get_aqi_category_info (PyFloat (Fin 42))) = Some r1 ∧
     rank_of (get_aqi_category_info (PyFloat (Fin 160))) = Some r2 ∧
     (r1 ≤ r2)%nat).
Proof.
  split.
  - exact (proj1 classifier_total_monotone PyNone I).
  - exact (proj2 classifier_total_monotone (Fin 42) (Fin 160) eq_refl).
Defined.

End Classifier.

(** ** Filter engine *)

Section FilterEngine.

Implicit Types (R : list reading) (region pollutant : string).

Lemma filter_all {A : Type} (P : A → Prop) `{∀ x, Decision (P x)} (l : list A) :
  (∀ x, P x) → filter P l = l.
Proof.
  intros HP. induction l as [|x l IH]; [done|].
  rewrite filter_cons_True by apply HP. by rewrite IH.
Qed.

(** The filter block keeps exactly the rows that both selectors let
    through, in place. *)
Lemma apply_filters_selects R region pollutant :
  apply_filters R region pollutant
  = filter (λ r, selects pollutant (contaminante r) ∧ selects region (estado r)) R.
Proof.
  unfold apply_filters, selects.
  destruct (decide (region ≠ "Todos")) as [Hr|Hr];
    destruct (decide (pollutant ≠ "Todos")) as [Hp|Hp].
  - rewrite list_filter_filter. apply list_filter_iff. intros r. naive_solver.
  - apply list_filter_iff. intros r. apply dec_stable in Hp. naive_solver.
  - apply list_filter_iff. intros r. apply dec_stable in Hr. naive_solver.
  - symmetry. apply filter_all. intros r.
    apply dec_stable in Hr. apply dec_stable in Hp. naive_solver.
Qed.

(** C2. With both selectors at the sentinel the filter block returns its
    input; filtering by region and then by pollutant, or by pollutant and
    then by region, is filtering by both at once; a row is in the result
    exactly when it is in both single-selector results; and the result
    keeps the rows of the input in their order. The result is a plain
    row list, which may be empty. *)
Theorem filter_engine_laws R region pollutant :
  apply_filters R "Todos" "Todos" = R ∧
  apply_filters (apply_filters R region "Todos") "Todos" pollutant
    = apply_filters R region pollutant ∧
  apply_filters (apply_filters R "Todos" pollutant) region "Todos"
    = apply_filters R region pollutant ∧
  (∀ r, r ∈ apply_filters R region pollutant ↔
        r ∈ apply_filters R region "Todos" ∧ r ∈ apply_filters R "Todos" pollutant) ∧
  apply_filters R region pollutant
    = filter (λ r, selects pollutant (contaminante r))
             (apply_filters R region "Todos") ∧
  apply_filters R region pollutant `sublist_of` R ∧
  (apply_filters R region pollutant = [] ↔
   ∀ r, r ∈ R → ¬ (selects region (estado r) ∧ selects pollutant (contaminante r))).
Proof.
  split_and!.
  - done.
  - rewrite !apply_filters_selects, list_filter_filter.
    apply list_filter_iff. intros r. unfold selects. naive_solver.
  - rewrite !apply_filters_selects, list_filter_filter.
    apply list_filter_iff. intros r. unfold selects. naive_solver.
  - intros r. rewrite !apply_filters_selects, !list_elem_of_filter.
    unfold selects. naive_solver.
  - rewrite !apply_filters_selects, list_filter_filter.
    apply list_filter_iff. intros r. unfold selects. naive_solver.
  - rewrite apply_filters_selects. apply sublist_filter.
  - rewrite apply_filters_selects. split.
    + intros Hnil r Hr [Hs Hp].
      by eapply (filter_nil_not_elem_of _ _ r Hnil).
    + intros Hno. induction R as [|x R IH]; [done|].
      rewrite filter_cons_False.
      * apply IH. intros r Hr. apply Hno. by right.
      * intros [Hp Hs]. apply (Hno x); [by left|done].
Qed.

(** A selection that matches no row gives the empty table. *)
Example apply_filters_empty :
  apply_filters
    [ mk_reading 1 100 (Some "Austin") (Some "TX") None None (Some "O3") (Some 45%Q) (Some "Good") ]
    "CA" "Todos" = [].
Proof. reflexivity. Qed.

End FilterEngine.

(** ** Aggregator: overall metrics *)

Section Metrics.

Local Open Scope Q_scope.

Lemma dropna_cons_Some {A : Type} (x : A) (col : list (option A)) :
  dropna (Some x :: col) = x :: dropna col.
Proof. reflexivity. Qed.

Lemma dropna_cons_None {A : Type} (col : list (option A)) :
  dropna (None :: col) = dropna col.
Proof. reflexivity. Qed.

Lemma elem_of_dropna {A : Type} (x : A) (col : list (option A)) :
  x ∈ dropna col ↔ Some x ∈ col.
Proof.
  unfold dropna. rewrite list_elem_of_omap. split.
  - by intros (y & Hy & ->).
  - intros Hx. by exists (Some x).
Qed.

(** The valid cells are the cells left when the null ones are dropped. *)
Lemma count_notna_dropna {A : Type} (col : list (option A)) :
  count_notna col = length (dropna col).
Proof.
  unfold count_notna. induction col as [|[x|] col IH].
  - done.
  - rewrite filter_cons_False by done. rewrite dropna_cons_Some. cbn [length].
    pose proof (length_filter (λ x : option A, x = None) col). lia.
  - rewrite filter_cons_True by done. rewrite dropna_cons_None. cbn [length].
    exact IH.
Qed.

Lemma Qsum_cons (q : Q) (l : list Q) : Qsum (q :: l) = q + Qsum l.
Proof. reflexivity. Qed.

Lemma nansum_from (acc : Q) (col : list (option Q)) :
  foldl (λ acc x, match x with Some q => acc + q | None => acc end) acc col
  == acc + Qsum (dropna col).
Proof.
  revert acc. induction col as [|[q|] col IH]; intros acc; cbn [foldl].
  - cbn. lra.
  - rewrite IH, dropna_cons_Some, Qsum_cons. lra.
  - rewrite IH, dropna_cons_None. lra.
Qed.

(** The masked sum is the sum of the valid cells. *)
Lemma nansum_dropna (col : list (option Q)) : nansum col == Qsum (dropna col).
Proof. unfold nansum. rewrite nansum_from. lra. Qed.

(** Starting from a number, the running maximum stays a number: the start
    or a valid cell, and above both. *)
Lemma running_max_Fin (a : Q) (col : list (option Q)) :
  ∃ q, foldl fmax (Fin a) (fill_neg_inf <$> col) = Fin q ∧
       (q = a ∨ q ∈ dropna col) ∧ a <= q ∧ ∀ v, v ∈ dropna col → v <= q.
Proof.
  revert a. induction col as [|[b|] col IH]; intros a.
  - exists a. split_and!; [done|by left|lra|]. intros v Hv. inversion Hv.
  - cbn [fmap list_fmap foldl fill_neg_inf]. unfold fmax at 2. cbn [fle].
    destruct (Qle_bool a b) eqn:Hab.
    + apply Qle_bool_true in Hab.
      destruct (IH b) as (q & Hq & Hin & Hle & Hall). exists q.
      rewrite dropna_cons_Some. split_and!; [done| |lra|].
      * right. destruct Hin as [->|Hin]; [by left|by right].
      * intros v [->|Hv]%elem_of_cons; [done|by apply Hall].
    + apply Qle_bool_false in Hab.
      destruct (IH a) as (q & Hq & Hin & Hle & Hall). exists q.
      rewrite dropna_cons_Some. split_and!; [done| |done|].
      * destruct Hin as [->|Hin]; [by left|right; by right].
      * intros v [->|Hv]%elem_of_cons; [lra|by apply Hall].
  - cbn [fmap list_fmap foldl fill_neg_inf]. unfold fmax at 2. cbn [fle].
    rewrite dropna_cons_None. apply IH.
Qed.

(** Starting from minus infinity, the running maximum is the greatest
    valid cell, when there is one. *)
Lemma running_max_NegInf (col : list (option Q)) :
  dropna col ≠ [] →
  ∃ q, foldl fmax NegInf (fill_neg_inf <$> col) = Fin q ∧
       q ∈ dropna col ∧ ∀ v, v ∈ dropna col → v <= q.
Proof.
  induction col as [|[b|] col IH]; intros Hne.
  - done.
  - cbn [fmap list_fmap foldl fill_neg_inf]. unfold fmax at 2. cbn [fle].
    destruct (running_max_Fin b col) as (q & Hq & Hin & Hle & Hall).
    exists q. rewrite dropna_cons_Some. split_and!; [done| |].
    + destruct Hin as [->|Hin]; [by left|by right].
    + intros v [->|Hv]%elem_of_cons; [done|by apply Hall].
  - cbn [fmap list_fmap foldl fill_neg_inf]. unfold fmax at 2. cbn [fle].
    rewrite dropna_cons_None in *. by apply IH.
Qed.

(** Scanning for unique values keeps the values seen so far, adds the new
    ones and never repeats one. *)
Lemma unique_from {A : Type} `{EqDecision A} (col seen : list A) :
  NoDup seen →
  let out := foldl (λ seen x, if decide (x ∈ seen) then seen else (seen ++ [x])%list)
                   seen col in
  NoDup out ∧ ∀ x, x ∈ out ↔ x ∈ seen ∨ x ∈ col.
Proof.
  revert seen. induction col as [|y col IH]; intros seen Hnd; cbn [foldl].
  - split; [done|]. intros x. rewrite elem_of_nil. tauto.
  - destruct (decide (y ∈ seen)) as [Hy|Hy].
    + destruct (IH seen Hnd) as [Hout Hmem]. split; [done|].
      intros x. rewrite Hmem, elem_of_cons.
      split; [tauto|]. intros [?|[->|?]]; tauto.
    + assert (Hnd' : NoDup (seen ++ [y])).
      { apply NoDup_app. split_and!; [done| |apply NoDup_singleton].
        intros x Hx ->%list_elem_of_singleton. done. }
      destruct (IH _ Hnd') as [Hout Hmem]. split; [done|].
      intros x. rewrite Hmem, elem_of_app, list_elem_of_singleton, elem_of_cons. tauto.
Qed.

Lemma NoDup_dropna {A : Type} (col : list (option A)) :
  NoDup col → NoDup (dropna col).
Proof.
  induction 1 as [|[x|] col Hx Hnd IH].
  - constructor.
  - rewrite dropna_cons_Some. constructor; [|done]. by rewrite elem_of_dropna.
  - by rewrite dropna_cons_None.
Qed.

(** [nunique] counts the set of values that occur in a valid cell. *)
Lemma series_nunique_size (col : list (option string)) :
  series_nunique col = size (list_to_set (dropna col) : gset string).
Proof.
  unfold series_nunique, series_unique.
  destruct (unique_from col [] (NoDup_nil_2)) as [Hnd Hmem].
  rewrite <- (size_list_to_set (C := gset string)) by by apply NoDup_dropna.
  f_equal. apply set_eq. intros x.
  rewrite !elem_of_list_to_set, !elem_of_dropna, Hmem, elem_of_nil. tauto.
Qed.

(** Equal rationals are within any positive tolerance of each other. *)
Lemma Qeq_within_tolerance (x y : Q) : x == y → Qabs (x - y) <= 1 / 1000000.
Proof.
  intros Hxy. assert (Hz : x - y == 0) by lra.
  rewrite Hz. vm_compute. discriminate.
Qed.

(** C3. The overall metrics of a filtered set: the mean is the sum of the
    readings' non-null AQI values over their number, the maximum is the
    greatest of them, the count is the number of rows whatever their AQI,
    and the city and state counts are the sizes of the sets of cities and
    of states that occur. When no AQI is present mean and maximum are
    NaN. *)
Theorem overall_metrics_spec (df_filtered : list reading) :
  df_filtered ≠ [] →
  let m := compute_metrics df_filtered in
  let values := dropna (aqi <$> df_filtered) in
  (values = [] → avg_aqi m = NaN ∧ max_aqi m = NaN) ∧
  (values ≠ [] →
     (∃ mean, avg_aqi m = Fin mean ∧
              mean == Qsum values / inject_Z (Z.of_nat (length values)) ∧
              Qabs (mean - Qsum values / inject_Z (Z.of_nat (length values))) <= 1 / 1000000) ∧
     (∃ top, max_aqi m = Fin top ∧ top ∈ values ∧ ∀ v, v ∈ values → v <= top)) ∧
  total_lecturas m = length df_filtered ∧
  ciudades m = size (list_to_set (dropna (ciudad <$> df_filtered)) : gset string) ∧
  estados m = size (list_to_set (dropna (estado <$> df_filtered)) : gset string).
Proof.
  intros _ m values. subst m values. cbn [compute_metrics avg_aqi max_aqi
    total_lecturas ciudades estados].
  unfold series_mean, series_max. rewrite count_notna_dropna.
  split_and!.
  - intros ->. done.
  - intros Hne.
    destruct (decide (length (dropna (aqi <$> df_filtered)) = 0%nat)) as [Hz|Hz].
    { by apply length_zero_iff_nil in Hz. }
    split.
    + eexists. split; [done|].
      assert (Hmean : nansum (aqi <$> df_filtered) /
                      inject_Z (Z.of_nat (length (dropna (aqi <$> df_filtered))))
                      == Qsum (dropna (aqi <$> df_filtered)) /
                         inject_Z (Z.of_nat (length (dropna (aqi <$> df_filtered))))).
      { by rewrite nansum_dropna. }
      split; [exact Hmean|].
      by apply Qeq_within_tolerance.
    + by apply running_max_NegInf.
  - done.
  - apply series_nunique_size.
  - apply series_nunique_size.
Qed.

(** On the two Austin readings, 45 and 55, the mean is 50. *)
Lemma overall_metrics_spec_witness :
  austin_readings ≠ [] ∧
  ∃ mean, avg_aqi (compute_metrics austin_readings) = Fin mean ∧ mean == 50.
Proof.
  assert (Hne : austin_readings ≠ []) by discriminate.
  split; [exact Hne|].
  destruct (overall_metrics_spec austin_readings Hne) as (_ & Hvalues & _).
  destruct Hvalues as [(mean & Hmean & Heq & _) _]; [discriminate|].
  exists mean. split; [exact Hmean|].
  rewrite Heq. reflexivity.
Defined.

End Metrics.

(** ** Aggregator: category distribution *)

Section Distribution.

Local Open Scope Q_scope.

Implicit Types (k cat : string) (counts : list (string * nat)).

Lemma count_for_bump_eq k counts : count_for k (bump k counts) = S (count_for k counts).
Proof.
  induction counts as [|[k' n] counts IH]; cbn.
  - by rewrite decide_True.
  - destruct (decide (k = k')) as [->|Hne]; cbn.
    + by rewrite decide_True.
    + by rewrite decide_False.
Qed.

Lemma count_for_bump_ne k k' counts :
  k ≠ k' → count_for k' (bump k counts) = count_for k' counts.
Proof.
  intros Hne. induction counts as [|[k'' n] counts IH]; cbn.
  - by rewrite decide_False.
  - destruct (decide (k = k'')) as [->|Hne']; cbn.
    + by rewrite !decide_False.
    + destruct (decide (k' = k'')); [done|exact IH].
Qed.

Lemma bump_keys k counts :
  (bump k counts).*1 = if decide (k ∈ counts.*1) then counts.*1 else (counts.*1 ++ [k])%list.
Proof.
  induction counts as [|[k' n] counts IH]; cbn.
  - rewrite decide_False; [done|]. apply not_elem_of_nil.
  - destruct (decide (k = k')) as [->|Hne]; cbn.
    + rewrite decide_True; [done|]. by left.
    + rewrite IH. destruct (decide (k ∈ counts.*1)) as [Hin|Hin].
      * rewrite decide_True; [done|]. by right.
      * rewrite decide_False; [done|]. by intros [?|?]%elem_of_cons.
Qed.

Lemma bump_NoDup k counts : NoDup counts.*1 → NoDup (bump k counts).*1.
Proof.
  intros Hnd. rewrite bump_keys. destruct (decide (k ∈ counts.*1)); [done|].
  apply NoDup_app. split_and!; [done| |apply NoDup_singleton].
  by intros x Hx ->%list_elem_of_singleton.
Qed.

Lemma bump_total k counts : sum_list (bump k counts).*2 = S (sum_list counts.*2).
Proof.
  induction counts as [|[k' n] counts IH]; cbn; [done|].
  destruct (decide (k = k')); cbn; [done|]. rewrite IH. lia.
Qed.

(** In a tally without repeated keys, an entry is the count of its key. *)
Lemma count_for_entry k n counts :
  NoDup counts.*1 → (k, n) ∈ counts → count_for k counts = n.
Proof.
  induction counts as [|[k' n'] counts IH]; cbn; intros Hnd Hin.
  - inversion Hin.
  - apply NoDup_cons in Hnd as [Hk' Hnd].
    apply elem_of_cons in Hin as [[= <- <-]|Hin].
    + by rewrite decide_True.
    + rewrite decide_False; [by apply IH|].
      intros <-. apply Hk'. apply list_elem_of_fmap. by exists (k, n).
Qed.

(** A key with a non-zero count has its entry. *)
Lemma count_for_nonzero k counts :
  count_for k counts ≠ 0%nat → (k, count_for k counts) ∈ counts.
Proof.
  induction counts as [|[k' n'] counts IH]; cbn; intros Hnz; [done|].
  destruct (decide (k = k')) as [->|Hne]; [by left|]. right. by apply IH.
Qed.

Lemma occurrences_cons_eq k (col : list (option string)) :
  occurrences k (Some k :: col) = S (occurrences k col).
Proof. unfold occurrences. by rewrite filter_cons_True. Qed.

Lemma occurrences_cons_ne k (x : option string) (col : list (option string)) :
  x ≠ Some k → occurrences k (x :: col) = occurrences k col.
Proof. intros Hne. unfold occurrences. by rewrite filter_cons_False. Qed.

(** What the scan of a column does to a tally. *)
Lemma tally_from (col : list (option string)) counts :
  let out := foldl (λ counts x, match x with Some k => bump k counts | None => counts end)
                   counts col in
  (NoDup counts.*1 → NoDup out.*1) ∧
  (Forall (λ p, 0 < p.2)%nat counts → Forall (λ p, 0 < p.2)%nat out) ∧
  (∀ k, count_for k out = (count_for k counts + occurrences k col)%nat) ∧
  sum_list out.*2 = (sum_list counts.*2 + length (dropna col))%nat.
Proof.
  revert counts. induction col as [|[c|] col IH]; intros counts; cbn [foldl].
  - split_and!; [done|done| |cbn; lia]. intros k. unfold occurrences. cbn. lia.
  - destruct (IH (bump c counts)) as (Hnd & Hpos & Hcount & Hsum).
    split_and!.
    + intros H. by apply Hnd, bump_NoDup.
    + intros H. apply Hpos. clear -H.
      induction counts as [|[k' n] counts IHc]; cbn.
      * repeat constructor.
      * apply Forall_cons in H as [Hn H].
        destruct (decide (c = k')); constructor; cbn in *; auto with lia.
    + intros k. rewrite Hcount. destruct (decide (c = k)) as [->|Hne].
      * rewrite count_for_bump_eq, occurrences_cons_eq. lia.
      * rewrite count_for_bump_ne by done.
        rewrite occurrences_cons_ne by congruence. done.
    + rewrite Hsum, bump_total, dropna_cons_Some. cbn [length]. lia.
  - destruct (IH counts) as (Hnd & Hpos & Hcount & Hsum).
    split_and!; [done|done| |by rewrite Hsum, dropna_cons_None].
    intros k. rewrite Hcount. by rewrite occurrences_cons_ne.
Qed.

Lemma insert_by_count_perm (p : string * nat) counts :
  insert_by_count p counts ≡ₚ p :: counts.
Proof.
  induction counts as [|q counts IH]; cbn; [done|].
  destruct (decide (q.2 ≤ p.2)%nat); [done|].
  rewrite IH. apply Permutation_swap.
Qed.

Lemma sort_by_count_perm counts : sort_by_count counts ≡ₚ counts.
Proof.
  induction counts as [|p counts IH]; cbn; [done|].
  unfold sort_by_count in IH. by rewrite insert_by_count_perm, IH.
Qed.

(** [value_counts] lists each value that occurs once, with the number of
    cells that hold it, and the counts add up to the non-null cells. *)
Lemma value_counts_spec (col : list (option string)) :
  NoDup (value_counts col).*1 ∧
  (∀ k n, (k, n) ∈ value_counts col ↔ n = occurrences k col ∧ (0 < n)%nat) ∧
  sum_list (value_counts col).*2 = count_notna col.
Proof.
  destruct (tally_from col []) as (Hnd & Hpos & Hcount & Hsum).
  fold (tally col) in Hnd, Hpos, Hcount, Hsum.
  specialize (Hnd (NoDup_nil_2)). specialize (Hpos (Forall_nil_2 _)).
  unfold value_counts. split_and!.
  - by rewrite sort_by_count_perm.
  - intros k n. rewrite sort_by_count_perm. split.
    + intros Hin. split.
      * rewrite <- (count_for_entry k n (tally col)) by done.
        rewrite Hcount. cbn. done.
      * rewrite Forall_forall in Hpos. by apply (Hpos (k, n)).
    + intros [-> Hn]. specialize (Hcount k). cbn in Hcount. rewrite <- Hcount.
      apply count_for_nonzero. rewrite Hcount. lia.
  - rewrite sort_by_count_perm, Hsum, count_notna_dropna. cbn. lia.
Qed.

Lemma pct_add (a b : nat) (df_filtered : list reading) :
  pct (a + b) df_filtered == pct a df_filtered + pct b df_filtered.
Proof.
  unfold pct. rewrite Nat2Z.inj_add, inject_Z_plus. unfold Qdiv. ring.
Qed.

(** The percentages of a tally add up to the percentage of its total. *)
Lemma Qsum_pct counts (df_filtered : list reading) :
  Qsum ((λ item : string * nat, pct item.2 df_filtered) <$> counts)
  == pct (sum_list counts.*2) df_filtered.
Proof.
  induction counts as [|[k n] counts IH]; cbn [fmap list_fmap sum_list sum_list_with snd].
  - unfold pct. cbn. unfold Qdiv. ring.
  - rewrite Qsum_cons, IH. cbn [snd]. by rewrite pct_add.
Qed.

Lemma categoria_lines_pcts (df_filtered : list reading) :
  (categoria_lines df_filtered).*2
  = (λ item : string * nat, pct item.2 df_filtered) <$> value_counts (categoria <$> df_filtered).
Proof. unfold categoria_lines. by rewrite <- list_fmap_compose. Qed.

Lemma categoria_lines_items (df_filtered : list reading) :
  (categoria_lines df_filtered).*1 = value_counts (categoria <$> df_filtered).
Proof.
  unfold categoria_lines. rewrite <- list_fmap_compose.
  rewrite <- (list_fmap_id (value_counts _)) at 2.
  apply list_fmap_ext. by intros i [k n] _.
Qed.

Lemma length_positive (df_filtered : list reading) :
  df_filtered ≠ [] → ¬ inject_Z (Z.of_nat (length df_filtered)) == 0.
Proof.
  intros Hne Hz. destruct df_filtered as [|r rest]; [done|].
  cbn [length] in Hz. unfold Qeq in Hz. cbn in Hz. lia.
Qed.

(** What the percentages of the distribution add up to. *)
Lemma categoria_lines_total (df_filtered : list reading) :
  Qsum (categoria_lines df_filtered).*2
  == pct (count_notna (categoria <$> df_filtered)) df_filtered.
Proof.
  rewrite categoria_lines_pcts, Qsum_pct.
  by destruct (value_counts_spec (categoria <$> df_filtered)) as (_ & _ & ->).
Qed.

Lemma count_notna_all (df_filtered : list reading) :
  Forall (λ r, categoria r ≠ None) df_filtered →
  count_notna (categoria <$> df_filtered) = length df_filtered.
Proof.
  intros Hall. rewrite count_notna_dropna.
  induction Hall as [|r rest Hr Hall IH]; [done|].
  cbn [fmap list_fmap]. destruct (categoria r) as [c|] eqn:Hc; [|done].
  rewrite dropna_cons_Some. cbn [length]. by rewrite IH.
Qed.

Lemma count_notna_some_null (df_filtered : list reading) :
  Exists (λ r, categoria r = None) df_filtered →
  (count_notna (categoria <$> df_filtered) < length df_filtered)%nat.
Proof.
  intros Hex. unfold count_notna. rewrite length_fmap.
  apply Exists_exists in Hex as (r & Hr & Hnull).
  assert (Hin : None ∈ filter (λ x : option string, x = None) (categoria <$> df_filtered)).
  { apply list_elem_of_filter. split; [done|].
    apply list_elem_of_fmap. by exists r. }
  destruct (filter _ (categoria <$> df_filtered)) as [|x l] eqn:Hf; [inversion Hin|].
  cbn [length]. destruct df_filtered; [inversion Hr|]. cbn [length]. lia.
Qed.

(** C4, as the code has it. For a non-empty filtered set, each line of the
    category distribution carries a label that occurs, the number of rows
    with that label, and that number over the number of filtered rows, times
    100; each label that occurs has its line, only once. Rows without a
    label have no line, so the percentages add up to the share of labelled
    rows: 100 when every row has a label, less when some row has none. *)
Theorem category_distribution_spec (df_filtered : list reading) :
  df_filtered ≠ [] →
  let lines := categoria_lines df_filtered in
  let labels := categoria <$> df_filtered in
  (∀ cat count share, (cat, count, share) ∈ lines →
     count = occurrences cat labels ∧ (0 < count)%nat ∧
     share = inject_Z (Z.of_nat count) / inject_Z (Z.of_nat (length df_filtered)) * 100) ∧
  (∀ cat, Some cat ∈ labels → ∃ count share, (cat, count, share) ∈ lines) ∧
  NoDup lines.*1.*1 ∧
  Qsum lines.*2
    == inject_Z (Z.of_nat (count_notna labels)) / inject_Z (Z.of_nat (length df_filtered)) * 100 ∧
  (Forall (λ r, categoria r ≠ None) df_filtered → Qsum lines.*2 == 100) ∧
  (Exists (λ r, categoria r = None) df_filtered → Qsum lines.*2 < 100).
Proof.
  intros Hne lines labels. subst lines labels.
  destruct (value_counts_spec (categoria <$> df_filtered)) as (Hnd & Hmem & Hsum).
  pose proof (length_positive df_filtered Hne) as Hlen.
  split_and!.
  - intros cat count share Hin. unfold categoria_lines in Hin.
    apply list_elem_of_fmap in Hin as ([k n] & [= -> -> ->] & Hin). cbn.
    apply Hmem in Hin as [-> Hpos]. done.
  - intros cat Hcat. exists (occurrences cat (categoria <$> df_filtered)), (pct (occurrences cat (categoria <$> df_filtered)) df_filtered).
    unfold categoria_lines. apply list_elem_of_fmap.
    exists (cat, occurrences cat (categoria <$> df_filtered)). split; [done|].
    apply Hmem. split; [done|]. unfold occurrences.
    assert (Hin : Some cat ∈ filter (λ x, x = Some cat) (categoria <$> df_filtered)).
    { by apply list_elem_of_filter. }
    destruct (filter _ _); [inversion Hin|cbn; lia].
  - by rewrite categoria_lines_items.
  - apply categoria_lines_total.
  - intros Hall. rewrite categoria_lines_total, count_notna_all by done.
    unfold pct. field. exact Hlen.
  - intros Hex. rewrite categoria_lines_total. unfold pct.
    apply count_notna_some_null in Hex.
    set (n := count_notna (categoria <$> df_filtered)) in *.
    set (len := length df_filtered) in *.
    assert (Hn : inject_Z (Z.of_nat n) < inject_Z (Z.of_nat len)).
    { rewrite <- Zlt_Qlt. lia. }
    assert (Hpos : 0 < inject_Z (Z.of_nat len)).
    { change 0 with (inject_Z 0). rewrite <- Zlt_Qlt. lia. }
    assert (Hratio : inject_Z (Z.of_nat n) / inject_Z (Z.of_nat len) < 1).
    { apply Qlt_shift_div_r; [done|lra]. }
    lra.
Qed.

(** On the two Austin readings the distribution is one Good and one
    Moderate line of 50 each. *)
Lemma category_distribution_spec_witness :
  austin_readings ≠ [] ∧
  Forall (λ r, categoria r ≠ None) austin_readings ∧
  Qsum (categoria_lines austin_readings).*2 == 100.
Proof.
  assert (Hne : austin_readings ≠ []) by discriminate.
  assert (Hall : Forall (λ r, categoria r ≠ None) austin_readings).
  { repeat constructor; discriminate. }
  split_and!; [exact Hne|exact Hall|].
  destruct (category_distribution_spec austin_readings Hne) as (_ & _ & _ & _ & Hfull & _).
  exact (Hfull Hall).
Defined.

(** With one of two rows unlabelled the single line reads 50 and the
    percentages stop there, far from 100. *)
Lemma category_distribution_null_counterexample :
  unlabelled_readings ≠ [] ∧
  categoria_lines unlabelled_readings = [("Good"%string, 1%nat, pct 1 unlabelled_readings)] ∧
  Qsum (categoria_lines unlabelled_readings).*2 == 50 ∧
  ¬ (Qabs (Qsum (categoria_lines unlabelled_readings).*2 - 100) <= 1).
Proof.
  split_and!; [discriminate|reflexivity|reflexivity|].
  vm_compute. intros H. by apply H.
Qed.

End Distribution.

(** ** Aggregator: latest reading per city *)

Section LatestPerCity.

(** C8, where the code departs from it. The newer of the two Austin
    readings has no AQI; the snapshot row of Austin carries the timestamp
    and key of the newer reading with the AQI and label of the older one,
    so it is a row that no reading of the input is. *)
Theorem df_map_mixes_readings :
  df_map stale_aqi_readings =
    [ mk_reading 2 200 (Some "Austin") (Some "TX") (Some 30.27%Q) (Some (-97.74)%Q)
        (Some "O3") (Some 45%Q) (Some "Good") ] ∧
  (∀ row, row ∈ df_map stale_aqi_readings → row ∉ stale_aqi_readings) ∧
  (∀ row, row ∈ df_map stale_aqi_readings →
     fecha row = 200%Z ∧ aqi row = Some 45%Q ∧
     ∀ r, r ∈ stale_aqi_readings → fecha r = 200%Z → aqi r = None).
Proof.
  assert (Hmap : df_map stale_aqi_readings =
    [ mk_reading 2 200 (Some "Austin") (Some "TX") (Some 30.27%Q) (Some (-97.74)%Q)
        (Some "O3") (Some 45%Q) (Some "Good") ]) by reflexivity.
  split_and!; [exact Hmap| |]; rewrite Hmap; intros row ->%list_elem_of_singleton.
  - unfold stale_aqi_readings. intros Hin.
    repeat (apply elem_of_cons in Hin as [Hin|Hin]; [discriminate Hin|]).
    inversion Hin.
  - split_and!; [done|done|]. unfold stale_aqi_readings. intros r Hin Hf.
    repeat (apply elem_of_cons in Hin as [->|Hin]; [try done|]).
    inversion Hin.
Qed.

Lemma last_valid_snoc {A : Type} (cells : list (option A)) (x : A) :
  last_valid (cells ++ [Some x]) = Some x.
Proof.
  unfold last_valid, dropna. rewrite omap_app. cbn. apply last_snoc.
Qed.

(** When the last row of a group has no null cell, the group's snapshot
    row is that row: the departure above needs a null cell. *)
Lemma group_last_complete (c : string) (group : list reading) (r : reading) :
  complete r → ciudad r = Some c → group_last c (group ++ [r]) = Some r.
Proof.
  intros (_ & [e He] & [la Hla] & [lo Hlo] & [p Hp] & [a Ha] & [k Hk]) Hc.
  unfold group_last. rewrite last_snoc. cbn [mbind option_bind].
  rewrite !fmap_app. cbn [fmap list_fmap].
  rewrite He, Hla, Hlo, Hp, Ha, Hk, !last_valid_snoc.
  destruct r; cbn in *. by simplify_eq.
Qed.

Lemma insert_by_fecha_perm (r : reading) (l : list reading) :
  insert_by_fecha r l ≡ₚ r :: l.
Proof.
  induction l as [|x l IH]; cbn; [done|].
  destruct (decide (fecha r ≤ fecha x)%Z); [done|].
  rewrite IH. apply Permutation_swap.
Qed.

Lemma sort_values_fecha_perm (df : list reading) : sort_values_fecha df ≡ₚ df.
Proof.
  induction df as [|r df IH]; cbn; [done|].
  unfold sort_values_fecha in IH. by rewrite insert_by_fecha_perm, IH.
Qed.

Lemma insert_by_fecha_sorted (r : reading) (l : list reading) :
  StronglySorted not_after l → StronglySorted not_after (insert_by_fecha r l).
Proof.
  induction 1 as [|x l Hsorted IH Hx]; cbn.
  - repeat constructor.
  - destruct (decide (fecha r ≤ fecha x)%Z) as [Hle|Hgt].
    + constructor; [by constructor|]. constructor; [done|].
      eapply Forall_impl; [exact Hx|]. unfold not_after. intros y Hy. lia.
    + constructor; [done|]. rewrite insert_by_fecha_perm.
      constructor; [|done]. unfold not_after. lia.
Qed.

Lemma sort_values_fecha_sorted (df : list reading) :
  StronglySorted not_after (sort_values_fecha df).
Proof.
  induction df as [|r df IH]; cbn; [constructor|].
  by apply insert_by_fecha_sorted.
Qed.

(** In a sorted list every row stands before the rows not older than it. *)
Lemma sorted_before (l1 l2 : list reading) (r x : reading) :
  StronglySorted not_after (l1 ++ r :: l2) → x ∈ l1 → not_after x r.
Proof.
  induction l1 as [|y l1 IH]; cbn; intros Hsorted Hx; [inversion Hx|].
  apply StronglySorted_cons in Hsorted as [Hy Hsorted].
  apply elem_of_cons in Hx as [->|Hx]; [|by apply IH].
  rewrite Forall_forall in Hy. apply Hy. apply elem_of_app. right. by left.
Qed.

Lemma insert_key_perm (k : string) (l : list string) : insert_key k l ≡ₚ k :: l.
Proof.
  induction l as [|x l IH]; cbn; [done|].
  destruct (String.leb k x); [done|]. rewrite IH. apply Permutation_swap.
Qed.

(** The group keys are the cities that occur, each once. *)
Lemma group_keys_spec (df : list reading) :
  NoDup (group_keys df) ∧ ∀ c, c ∈ group_keys df ↔ Some c ∈ ciudad <$> df.
Proof.
  assert (Hperm : group_keys df ≡ₚ dropna (series_unique (ciudad <$> df))).
  { unfold group_keys. induction (dropna _) as [|k l IH]; cbn; [done|].
    by rewrite insert_key_perm, IH. }
  destruct (unique_from (ciudad <$> df) [] (NoDup_nil_2)) as [Hnd Hmem].
  cbn zeta in Hnd, Hmem. split.
  - rewrite Hperm. by apply NoDup_dropna.
  - intros c. rewrite Hperm, elem_of_dropna. unfold series_unique.
    rewrite Hmem, elem_of_nil. tauto.
Qed.

(** What [GroupBy.last()] keeps of the last row of a group. *)
Lemma group_last_Some (c : string) (group : list reading) (row : reading) :
  group_last c group = Some row →
  ∃ r, last group = Some r ∧ ciudad row = Some c ∧
       fecha row = fecha r ∧ row_id row = row_id r.
Proof.
  unfold group_last. destruct (last group) as [r|]; [|done].
  cbn. intros [= <-]. by exists r.
Qed.

(** The cities of the snapshot are the group keys, in their order. *)
Lemma df_map_cities (df_filtered : list reading) :
  ciudad <$> df_map df_filtered = Some <$> group_keys (sort_values_fecha df_filtered).
Proof.
  unfold df_map. set (sorted := sort_values_fecha df_filtered).
  set (pick := λ c, group_last c (filter (λ r, ciudad r = Some c) sorted)).
  destruct (group_keys_spec sorted) as [_ Hkeys].
  assert (Hall : ∀ c, c ∈ group_keys sorted → Some c ∈ ciudad <$> sorted)
    by (intros c; apply Hkeys).
  clear Hkeys. induction (group_keys sorted) as [|c ks IH]; [done|].
  cbn [omap list_omap].
  destruct (pick c) as [row|] eqn:Hrow.
  - apply group_last_Some in Hrow as (r & _ & Hc & _).
    cbn [fmap list_fmap]. rewrite Hc. f_equal. apply IH.
    intros c' Hc'. apply Hall. by right.
  - exfalso. unfold pick, group_last in Hrow.
    destruct (last _) as [r|] eqn:Hlast; [done|].
    apply last_None in Hlast.
    assert (Hin : Some c ∈ ciudad <$> sorted) by (apply Hall; by left).
    apply list_elem_of_fmap in Hin as (r & Hr & Hin).
    by eapply (filter_nil_not_elem_of _ _ r Hlast).
Qed.

(** X9. What holds of the snapshot in general. It has one row for each city that
    occurs, and that row carries the key and the timestamp of a reading of
    the city, the timestamp being the greatest among the city's readings.
    (Which of several readings with that timestamp gives the key depends on
    how the sort orders equal timestamps; here it is the last of them in
    the stable order.) *)
Lemma df_map_latest (df_filtered : list reading) :
  ciudad <$> df_map df_filtered = Some <$> group_keys (sort_values_fecha df_filtered) ∧
  NoDup (ciudad <$> df_map df_filtered) ∧
  (∀ c, Some c ∈ ciudad <$> df_map df_filtered ↔ Some c ∈ ciudad <$> df_filtered) ∧
  ∀ row, row ∈ df_map df_filtered →
    ∃ r, r ∈ df_filtered ∧ ciudad r = ciudad row ∧
         fecha r = fecha row ∧ row_id r = row_id row ∧
         ∀ x, x ∈ df_filtered → ciudad x = ciudad row → (fecha x ≤ fecha row)%Z.
Proof.
  unfold df_map. set (sorted := sort_values_fecha df_filtered).
  set (pick := λ c, group_last c (filter (λ r, ciudad r = Some c) sorted)).
  pose proof (sort_values_fecha_perm df_filtered) as Hperm. fold sorted in Hperm.
  pose proof (sort_values_fecha_sorted df_filtered) as Hsorted. fold sorted in Hsorted.
  destruct (group_keys_spec sorted) as [Hnd Hkeys].
  assert (Hcols : ciudad <$> omap pick (group_keys sorted) = Some <$> group_keys sorted)
    by apply (df_map_cities df_filtered).
  split_and!.
  - exact Hcols.
  - rewrite Hcols. apply NoDup_fmap_2; [|done]. by intros x y [= ->].
  - intros c. rewrite Hcols, <- Hperm, <- Hkeys.
    rewrite list_elem_of_fmap. split.
    + by intros (c' & [= ->] & Hin).
    + intros Hin. by exists c.
  - intros row Hrow. apply list_elem_of_omap in Hrow as (c & Hc & Hrow).
    apply group_last_Some in Hrow as (r & Hlast & Hcity & Hfecha & Hid).
    pose proof (last_Some_elem_of _ _ Hlast) as Hr.
    apply list_elem_of_filter in Hr as [Hrc Hr].
    exists r. split_and!; [by rewrite <- Hperm|congruence|done|done|].
    intros x Hx Hxc. rewrite Hcity in Hxc. rewrite Hfecha.
    apply last_filter_Some in Hlast as (l1 & l2 & Hsplit & Hrest).
    rewrite <- Hperm, Hsplit in Hx. rewrite Hsplit in Hsorted.
    apply elem_of_app in Hx as [Hx|Hx].
    + by apply (sorted_before l1 l2 r x).
    + apply elem_of_cons in Hx as [->|Hx]; [done|].
      rewrite Forall_forall in Hrest. by destruct (Hrest x Hx).
Qed.

End LatestPerCity.

(** ** Refresh controller *)

Section RefreshController.

Variable cfg : config.
Variable store : nat → list reading.








End RefreshController.


(** ** Prediction *)

Section Prediction.

Local Open Scope Q_scope.

Variables (ciudad estado contaminante : string) (latitud longitud : Q).
Variables (fecha : option Z) (categoria : option string) (now : Z).

(** The dictionary and the calls of [predict_aqi], key by key. *)
Lemma predict_aqi_lookup (ms : models) :
  let result := predict_aqi ms ciudad estado contaminante latitud longitud
                  fecha categoria now in
  result.1 !! "modelo1"%string = (m ← modelo1 ms; entry_of (m (model1_frame ciudad estado contaminante latitud longitud))) ∧
  result.1 !! "modelo1_error"%string = (m ← modelo1 ms; error_of (m (model1_frame ciudad estado contaminante latitud longitud))) ∧
  result.1 !! "modelo2"%string = (m ← modelo2 ms; entry_of (m (model2_frame ciudad estado contaminante latitud longitud fecha categoria now))) ∧
  result.1 !! "modelo2_error"%string = (m ← modelo2 ms; error_of (m (model2_frame ciudad estado contaminante latitud longitud fecha categoria now))) ∧
  result.2 = loaded_keys ms ∧
  dom result.1 ⊆ ({[ "modelo1"; "modelo1_error"; "modelo2"; "modelo2_error" ]}%string
                  : gset string).
Proof.
  unfold predict_aqi, loaded_keys.
  destruct (modelo1 ms) as [m1|], (modelo2 ms) as [m2|]; cbn [mbind option_bind];
    try destruct (m1 _) as [v1|e1]; try destruct (m2 _) as [v2|e2];
    cbn [fst snd entry_of error_of app];
    (split_and!; [by simplify_map_eq ..|done|]);
    rewrite ?dom_insert_L, ?dom_empty_L; set_solver.
Qed.

(** C6. Each loaded model is called on its own: whatever the call of one
    model does, the other is called too and its entry is its own result. In
    particular, with model 1 raising and model 2 returning a number the
    dictionary holds that number for model 2 and, for model 1, a null
    prediction and the message of the exception; and the other way round.
    With both models absent the tab reports unavailability and no model is
    called. *)
Theorem predict_isolates_failures (ms : models) :
  let result := predict_aqi ms ciudad estado contaminante latitud longitud
                  fecha categoria now in
  (∀ m1 m2 e v,
     modelo1 ms = Some m1 → modelo2 ms = Some m2 →
     m1 (model1_frame ciudad estado contaminante latitud longitud) = Raises e →
     m2 (model2_frame ciudad estado contaminante latitud longitud fecha categoria now)
       = Return v →
     result.1 !! "modelo1"%string = Some PyNone ∧
     result.1 !! "modelo1_error"%string = Some (PyStr e) ∧
     result.1 !! "modelo2"%string = Some (PyFloat v) ∧
     result.1 !! "modelo2_error"%string = None ∧
     result.2 = ["modelo1"; "modelo2"]%string) ∧
  (∀ m1 m2 e v,
     modelo1 ms = Some m1 → modelo2 ms = Some m2 →
     m1 (model1_frame ciudad estado contaminante latitud longitud) = Return v →
     m2 (model2_frame ciudad estado contaminante latitud longitud fecha categoria now)
       = Raises e →
     result.1 !! "modelo1"%string = Some (PyFloat v) ∧
     result.1 !! "modelo1_error"%string = None ∧
     result.1 !! "modelo2"%string = Some PyNone ∧
     result.1 !! "modelo2_error"%string = Some (PyStr e) ∧
     result.2 = ["modelo1"; "modelo2"]%string) ∧
  (∀ m2, modelo2 ms = Some m2 →
     "modelo2"%string ∈ result.2 ∧
     result.1 !! "modelo2"%string
       = entry_of (m2 (model2_frame ciudad estado contaminante latitud longitud
                         fecha categoria now)) ∧
     result.1 !! "modelo2_error"%string
       = error_of (m2 (model2_frame ciudad estado contaminante latitud longitud
                         fecha categoria now))) ∧
  (∀ m1, modelo1 ms = Some m1 →
     "modelo1"%string ∈ result.2 ∧
     result.1 !! "modelo1"%string
       = entry_of (m1 (model1_frame ciudad estado contaminante latitud longitud)) ∧
     result.1 !! "modelo1_error"%string
       = error_of (m1 (model1_frame ciudad estado contaminante latitud longitud))) ∧
  (modelo1 ms = None → modelo2 ms = None →
     ∀ clicked, predicciones_tab ms clicked ciudad estado contaminante
                  latitud longitud categoria now = (Unavailable, [])).
Proof.
  intros result.
  destruct (predict_aqi_lookup ms) as (H1 & H1e & H2 & H2e & Hcalls & _).
  fold result in H1, H1e, H2, H2e, Hcalls.
  split_and!.
  - intros m1 m2 e v Hm1 Hm2 Hr1 Hr2.
    rewrite H1, H1e, H2, H2e, Hcalls. unfold loaded_keys.
    rewrite Hm1, Hm2. cbn [mbind option_bind]. by rewrite Hr1, Hr2.
  - intros m1 m2 e v Hm1 Hm2 Hr1 Hr2.
    rewrite H1, H1e, H2, H2e, Hcalls. unfold loaded_keys.
    rewrite Hm1, Hm2. cbn [mbind option_bind]. by rewrite Hr1, Hr2.
  - intros m2 Hm2. rewrite H2, H2e, Hcalls. unfold loaded_keys. rewrite Hm2.
    split_and!; [|done|done]. apply elem_of_app. right. by left.
  - intros m1 Hm1. rewrite H1, H1e, Hcalls. unfold loaded_keys. rewrite Hm1.
    split_and!; [|done|done]. apply elem_of_app. left. by left.
  - intros Hm1 Hm2 clicked. unfold predicciones_tab. by rewrite decide_True.
Qed.

(** C10. The dictionary has entries only for the models that are loaded:
    nothing under the key or the error key of an absent model; a null
    prediction and an error message for a loaded model that raises; the
    number alone for a loaded model that returns one; and no key other than
    these four. With both models absent the dictionary is empty. *)
Theorem predictions_only_for_loaded (ms : models) :
  let predictions := (predict_aqi ms ciudad estado contaminante latitud longitud
                        fecha categoria now).1 in
  (modelo1 ms = None →
     predictions !! "modelo1"%string = None ∧
     predictions !! "modelo1_error"%string = None) ∧
  (modelo2 ms = None →
     predictions !! "modelo2"%string = None ∧
     predictions !! "modelo2_error"%string = None) ∧
  (∀ m1 e, modelo1 ms = Some m1 →
     m1 (model1_frame ciudad estado contaminante latitud longitud) = Raises e →
     predictions !! "modelo1"%string = Some PyNone ∧
     predictions !! "modelo1_error"%string = Some (PyStr e)) ∧
  (∀ m2 e, modelo2 ms = Some m2 →
     m2 (model2_frame ciudad estado contaminante latitud longitud fecha categoria now)
       = Raises e →
     predictions !! "modelo2"%string = Some PyNone ∧
     predictions !! "modelo2_error"%string = Some (PyStr e)) ∧
  (∀ m1 v, modelo1 ms = Some m1 →
     m1 (model1_frame ciudad estado contaminante latitud longitud) = Return v →
     predictions !! "modelo1"%string = Some (PyFloat v) ∧
     predictions !! "modelo1_error"%string = None) ∧
  (∀ m2 v, modelo2 ms = Some m2 →
     m2 (model2_frame ciudad estado contaminante latitud longitud fecha categoria now)
       = Return v →
     predictions !! "modelo2"%string = Some (PyFloat v) ∧
     predictions !! "modelo2_error"%string = None) ∧
  dom predictions ⊆ ({[ "modelo1"; "modelo1_error"; "modelo2"; "modelo2_error" ]}%string
                     : gset string) ∧
  (modelo1 ms = None → modelo2 ms = None → predictions = ∅).
Proof.
  intros predictions.
  destruct (predict_aqi_lookup ms) as (H1 & H1e & H2 & H2e & _ & Hdom).
  fold predictions in H1, H1e, H2, H2e, Hdom.
  split_and!.
  - intros Hm. by rewrite H1, H1e, Hm.
  - intros Hm. by rewrite H2, H2e, Hm.
  - intros m e Hm Hr. rewrite H1, H1e, Hm. cbn [mbind option_bind]. by rewrite Hr.
  - intros m e Hm Hr. rewrite H2, H2e, Hm. cbn [mbind option_bind]. by rewrite Hr.
  - intros m v Hm Hr. rewrite H1, H1e, Hm. cbn [mbind option_bind]. by rewrite Hr.
  - intros m v Hm Hr. rewrite H2, H2e, Hm. cbn [mbind option_bind]. by rewrite Hr.
  - exact Hdom.
  - intros Hm1 Hm2. subst predictions. unfold predict_aqi. by rewrite Hm1, Hm2.
Qed.

End Prediction.

(** Model 1 raises, model 2 answers 58: the dictionary has the answer of
    model 2 and the error of model 1. *)
Lemma predict_isolates_failures_witness :
  let result := predict_aqi (mk_models (Some failing_model1) (Some steady_model2))
                  "Austin" "TX" "O3" 30.27 (-97.74) None (Some "Good") 0 in
  result.1 !! "modelo1"%string = Some PyNone ∧
  result.1 !! "modelo1_error"%string
    = Some (PyStr "Found unknown categories ['Austin'] in column 0 during transform") ∧
  result.1 !! "modelo2"%string = Some (PyFloat (Fin 58)) ∧
  result.1 !! "modelo2_error"%string = None ∧
  result.2 = ["modelo1"; "modelo2"]%string.
Proof.
  exact (proj1 (predict_isolates_failures "Austin" "TX" "O3" 30.27 (-97.74) None
                  (Some "Good"%string) 0%Z
                  (mk_models (Some failing_model1) (Some steady_model2)))
           failing_model1 steady_model2 _ (Fin 58) eq_refl eq_refl eq_refl eq_refl).
Defined.

(** Model 1 raises and model 2 is absent: the dictionary has the two
    entries of model 1 and nothing for model 2. *)
Lemma predictions_only_for_loaded_witness :
  let predictions := (predict_aqi (mk_models (Some failing_model1) None)
                        "Austin" "TX" "O3" 30.27 (-97.74) None None 0).1 in
  (predictions !! "modelo2"%string = None ∧
   predictions !! "modelo2_error"%string = None) ∧
  (predictions !! "modelo1"%string = Some PyNone ∧
   predictions !! "modelo1_error"%string
     = Some (PyStr "Found unknown categories ['Austin'] in column 0 during transform")).
Proof.
  pose proof (predictions_only_for_loaded "Austin" "TX" "O3" 30.27 (-97.74) None None 0%Z
                (mk_models (Some failing_model1) None)) as (_ & Habsent & Hfails & _).
  split.
  - exact (Habsent eq_refl).
  - exact (Hfails failing_model1 _ eq_refl eq_refl).
Defined.

(** ** Comparison of the two predictions *)

Section Comparison.

Local Open Scope Q_scope.






(** Without both predictions there is nothing to compare. *)
Lemma comparison_needs_both (predictions : gmap string pyval) :
  dict_get predictions "modelo1" = PyNone ∨ dict_get predictions "modelo2" = PyNone →
  comparison predictions = None.
Proof.
  unfold comparison. intros [->| ->]; [done|].
  by destruct (dict_get predictions "modelo1") as [|f|s0].
Qed.

End Comparison.

(** ** The readings query *)

Section ReadingsQuery.

Implicit Types (mediciones df : list reading) (now hours : Z).

Lemma insert_by_fecha_desc_perm (r : reading) (l : list reading) :
  insert_by_fecha_desc r l ≡ₚ r :: l.
Proof.
  induction l as [|x l IH]; cbn; [done|].
  destruct (decide (fecha x ≤ fecha r)%Z); [done|].
  rewrite IH. apply Permutation_swap.
Qed.

Lemma insert_by_fecha_desc_sorted (r : reading) (l : list reading) :
  StronglySorted not_before l → StronglySorted not_before (insert_by_fecha_desc r l).
Proof.
  induction 1 as [|x l Hsorted IH Hx]; cbn.
  - repeat constructor.
  - destruct (decide (fecha x ≤ fecha r)%Z) as [Hle|Hgt].
    + constructor; [by constructor|]. constructor; [done|].
      eapply Forall_impl; [exact Hx|]. unfold not_before. intros y Hy. lia.
    + constructor; [done|]. rewrite insert_by_fecha_desc_perm.
      constructor; [|done]. unfold not_before. lia.
Qed.

(** In a sorted list an earlier position is related to a later one. *)
Lemma sorted_lookup {A : Type} (R : relation A) (l : list A) (i j : nat) (a b : A) :
  StronglySorted R l → l !! i = Some a → l !! j = Some b → (i < j)%nat → R a b.
Proof.
  intros Hsorted. revert i j. induction Hsorted as [|x l Hsorted IH Hx]; intros i j Ha Hb Hij.
  - done.
  - destruct j as [|j]; [lia|]. cbn in Hb. destruct i as [|i].
    + cbn in Ha. injection Ha as <-. rewrite Forall_forall in Hx.
      apply Hx. by eapply list_elem_of_lookup_2.
    + cbn in Ha. apply (IH i j); [done|done|lia].
Qed.

Lemma fetch_latest_readings_perm mediciones now hours :
  fetch_latest_readings mediciones now hours ≡ₚ filter (in_window now hours) mediciones.
Proof.
  unfold fetch_latest_readings.
  induction (filter _ mediciones) as [|r l IH]; cbn; [done|].
  by rewrite insert_by_fecha_desc_perm, IH.
Qed.

Lemma fetch_latest_readings_sorted mediciones now hours :
  StronglySorted not_before (fetch_latest_readings mediciones now hours).
Proof.
  unfold fetch_latest_readings.
  induction (filter _ mediciones) as [|r l IH]; cbn; [constructor|].
  by apply insert_by_fecha_desc_sorted.
Qed.

Lemma elem_of_fetch_latest_readings mediciones now hours (r : reading) :
  r ∈ fetch_latest_readings mediciones now hours
  ↔ r ∈ mediciones ∧ (now - hours * 3600 < fecha r)%Z.
Proof.
  rewrite fetch_latest_readings_perm, list_elem_of_filter. unfold in_window. tauto.
Qed.

(** X1. The readings query returns the rows of the table that are newer than
    the start of the window, each as often as the table has it, and lists
    them from the newest to the oldest. *)
Theorem fetch_latest_readings_spec mediciones now hours :
  let df := fetch_latest_readings mediciones now hours in
  df ≡ₚ filter (λ r, (now - hours * 3600 < fecha r)%Z) mediciones ∧
  (∀ r, r ∈ df ↔ r ∈ mediciones ∧ (now - hours * 3600 < fecha r)%Z) ∧
  (∀ i j a b, df !! i = Some a → df !! j = Some b → (i < j)%nat →
     (fecha b ≤ fecha a)%Z) ∧
  (df = [] ↔ ∀ r, r ∈ mediciones → (fecha r ≤ now - hours * 3600)%Z).
Proof.
  intros df. subst df. split_and!.
  - apply fetch_latest_readings_perm.
  - intros r. apply elem_of_fetch_latest_readings.
  - intros i j a b Ha Hb Hij.
    pose proof (fetch_latest_readings_sorted mediciones now hours) as Hsorted.
    apply (sorted_lookup _ _ i j a b Hsorted Ha Hb Hij).
  - split.
    + intros Hnil r Hr. destruct (decide (fecha r ≤ now - hours * 3600)%Z) as [|Hnew]; [done|].
      assert (Hin : r ∈ fetch_latest_readings mediciones now hours).
      { apply elem_of_fetch_latest_readings. split; [done|lia]. }
      rewrite Hnil in Hin. inversion Hin.
    + intros Hold.
      destruct (fetch_latest_readings mediciones now hours) as [|r l] eqn:Hdf; [done|].
      assert (Hin : r ∈ fetch_latest_readings mediciones now hours)
        by (rewrite Hdf; by left).
      apply elem_of_fetch_latest_readings in Hin as [Hr Hnew].
      specialize (Hold r Hr). lia.
Qed.

End ReadingsQuery.

(** ** Sidebar selectors *)

Section Selectors.

Implicit Types (df df_all : list reading) (col : list (option string)).

Lemma String_compare_trans (s1 : string) : ∀ s2 s3,
  String.compare s1 s2 ≠ Gt → String.compare s2 s3 ≠ Gt → String.compare s1 s3 ≠ Gt.
Proof.
  induction s1 as [|a s1 IH]; intros [|b s2] [|c s3]; cbn; try done.
  destruct (Ascii.compare a b) eqn:Hab; [| |done];
    destruct (Ascii.compare b c) eqn:Hbc; try done.
  - apply Ascii.compare_eq_iff in Hab as ->. rewrite Hbc. apply IH.
  - apply Ascii.compare_eq_iff in Hab as ->. by rewrite Hbc.
  - apply Ascii.compare_eq_iff in Hbc as ->. by rewrite Hab.
  - intros _ _. unfold Ascii.compare in *. rewrite N.compare_lt_iff in Hab, Hbc.
    assert (H : (Ascii.N_of_ascii a < Ascii.N_of_ascii c)%N) by lia.
    apply N.compare_lt_iff in H. by rewrite H.
Qed.

Lemma String_leb_trans (s1 s2 s3 : string) :
  String.leb s1 s2 = true → String.leb s2 s3 = true → String.leb s1 s3 = true.
Proof.
  unfold String.leb. intros H12 H23.
  pose proof (String_compare_trans s1 s2 s3) as H.
  destruct (String.compare s1 s2), (String.compare s2 s3), (String.compare s1 s3);
    try done; exfalso; by apply H.
Qed.

(** Distinct strings in order are in strict order. *)
Lemma String_leb_ltb (s1 s2 : string) :
  String.leb s1 s2 = true → s1 ≠ s2 → String.ltb s1 s2 = true.
Proof.
  unfold String.leb, String.ltb. intros Hle Hne.
  destruct (String.compare s1 s2) eqn:Hc; [|done|done].
  by apply String.compare_eq_iff in Hc.
Qed.

Lemma insert_key_sorted (k : string) (l : list string) :
  StronglySorted (λ a b, String.leb a b = true) l →
  StronglySorted (λ a b, String.leb a b = true) (insert_key k l).
Proof.
  induction 1 as [|x l Hsorted IH Hx]; cbn.
  - repeat constructor.
  - destruct (String.leb k x) eqn:Hkx.
    + constructor; [by constructor|]. constructor; [done|].
      eapply Forall_impl; [exact Hx|]. intros y Hy. by eapply String_leb_trans.
    + constructor; [done|]. rewrite insert_key_perm. constructor; [|done].
      destruct (String.leb_total k x) as [H|H]; [congruence|done].
Qed.

Lemma sorted_str_perm (l : list string) : sorted_str l ≡ₚ l.
Proof.
  unfold sorted_str. induction l as [|k l IH]; cbn; [done|].
  by rewrite insert_key_perm, IH.
Qed.

Lemma sorted_str_sorted (l : list string) :
  StronglySorted (λ a b, String.leb a b = true) (sorted_str l).
Proof.
  unfold sorted_str. induction l as [|k l IH]; cbn; [constructor|].
  by apply insert_key_sorted.
Qed.

(** [unique()] lists each value that occurs, once. *)
Lemma series_unique_spec {A : Type} `{EqDecision A} (l : list A) :
  NoDup (series_unique l) ∧ ∀ x, x ∈ series_unique l ↔ x ∈ l.
Proof.
  destruct (unique_from l [] (NoDup_nil_2)) as [Hnd Hmem]. cbn zeta in Hnd, Hmem.
  split; [exact Hnd|]. intros x. unfold series_unique. rewrite Hmem, elem_of_nil. tauto.
Qed.

(** The values a selector offers after the sentinel. *)
Lemma selector_values col :
  let rest := sorted_str (series_unique (dropna col)) in
  (∀ s, s ∈ rest ↔ Some s ∈ col) ∧
  NoDup rest ∧
  (∀ i j a b, rest !! i = Some a → rest !! j = Some b → (i < j)%nat →
     String.ltb a b = true).
Proof.
  intros rest. subst rest.
  destruct (series_unique_spec (dropna col)) as [Hnd Hmem].
  assert (Hnd' : NoDup (sorted_str (series_unique (dropna col))))
    by (by rewrite sorted_str_perm).
  split_and!.
  - intros s. by rewrite sorted_str_perm, Hmem, elem_of_dropna.
  - exact Hnd'.
  - intros i j a b Ha Hb Hij. apply String_leb_ltb.
    + apply (sorted_lookup _ _ i j a b (sorted_str_sorted _) Ha Hb Hij).
    + intros ->. pose proof (NoDup_lookup _ i j b Hnd' Ha Hb). lia.
Qed.

(** X2. The state selector and the pollutant selector each offer the sentinel
    "Todos" first and then the values that occur in their column of the
    48-hour frame: every such value once, null left out, in strictly
    ascending order. *)
Theorem sidebar_options_spec df_all :
  (∃ rest, estados_disponibles df_all = "Todos" :: rest ∧
     (∀ s, s ∈ rest ↔ ∃ r, r ∈ df_all ∧ estado r = Some s) ∧
     NoDup rest ∧
     (∀ i j a b, rest !! i = Some a → rest !! j = Some b → (i < j)%nat →
        String.ltb a b = true)) ∧
  (∃ rest, contaminantes_disponibles df_all = "Todos" :: rest ∧
     (∀ s, s ∈ rest ↔ ∃ r, r ∈ df_all ∧ contaminante r = Some s) ∧
     NoDup rest ∧
     (∀ i j a b, rest !! i = Some a → rest !! j = Some b → (i < j)%nat →
        String.ltb a b = true)).
Proof.
  split.
  - destruct (selector_values (estado <$> df_all)) as (Hmem & Hnd & Hord).
    eexists. split; [reflexivity|]. split_and!; [|exact Hnd|exact Hord].
    intros s. rewrite Hmem, list_elem_of_fmap. naive_solver.
  - destruct (selector_values (contaminante <$> df_all)) as (Hmem & Hnd & Hord).
    eexists. split; [reflexivity|]. split_and!; [|exact Hnd|exact Hord].
    intros s. rewrite Hmem, list_elem_of_fmap. naive_solver.
Qed.



End Selectors.

(** ** Selections and the rows they find *)

Section SelectorUse.

Implicit Types (df df_filtered : list reading) (cfg : config).

Lemma filter_nonempty {A : Type} (P : A → Prop) `{∀ x, Decision (P x)} (l : list A) (x : A) :
  x ∈ l → P x → filter P l ≠ [].
Proof.
  intros Hx HP Hnil. by eapply (filter_nil_not_elem_of _ _ x Hnil).
Qed.




(** A column whose cells all hold one value has that value as its only
    unique value. *)
Lemma series_unique_constant {A : Type} `{EqDecision A} (x : A) (l : list A) :
  l ≠ [] → Forall (λ y, y = x) l → series_unique l = [x].
Proof.
  intros Hne Hall. destruct (series_unique_spec l) as [Hnd Hmem].
  rewrite Forall_forall in Hall.
  assert (Hx : x ∈ series_unique l).
  { apply Hmem. destruct l as [|y l]; [done|]. rewrite <- (Hall y); by left. }
  destruct (series_unique l) as [|a [|b rest]] eqn:Hu.
  - inversion Hx.
  - by apply list_elem_of_singleton in Hx as ->.
  - exfalso. assert (Ha : a = x) by (apply Hall, Hmem; by left).
    assert (Hb : b = x) by (apply Hall, Hmem; right; by left).
    subst. apply NoDup_cons in Hnd as [Hnotin _]. apply Hnotin. by left.
Qed.

(** X14. The options of the chart selector when a pollutant is selected in the
    sidebar: the filtered rows all hold that pollutant, so the chart
    selector offers "Todos" and it, and building the options raises
    nothing. *)
Theorem cont_options_of_selection df (region pollutant : string) :
  pollutant ≠ "Todos" →
  apply_filters df region pollutant ≠ [] →
  cont_options (apply_filters df region pollutant)
  = Return [Some "Todos"; Some pollutant].
Proof.
  intros Hp Hne. unfold cont_options.
  rewrite (series_unique_constant (Some pollutant)); [done| |].
  - intros Hnil. apply fmap_nil_inv in Hnil. done.
  - apply Forall_fmap, Forall_forall. intros r Hr. cbn.
    unfold apply_filters in Hr. rewrite (decide_True (P := pollutant ≠ "Todos")) in Hr by done.
    by apply list_elem_of_filter in Hr as [Hr _].
Qed.

(** Ozone selected on the Austin readings. *)
Lemma cont_options_of_selection_witness :
  "O3" ≠ "Todos" ∧ apply_filters austin_readings "Todos" "O3" ≠ [] ∧
  cont_options (apply_filters austin_readings "Todos" "O3")
  = Return [Some "Todos"; Some "O3"].
Proof.
  assert (Hp : "O3" ≠ "Todos") by discriminate.
  assert (Hne : apply_filters austin_readings "Todos" "O3" ≠ []) by discriminate.
  split_and!; [exact Hp|exact Hne|].
  exact (cont_options_of_selection austin_readings "Todos" "O3" Hp Hne).
Defined.

(** X15. The options of the chart selector in general. Null pollutant cells are
    not dropped before sorting: when the filtered rows hold a null
    pollutant and some pollutant, the sort raises [TypeError] and no
    options are built; when none is null the options are "Todos" and the
    pollutants that occur, each once, in ascending order; when all are
    null the options are "Todos" and [None]. *)
Theorem cont_options_spec df_filtered :
  let col := contaminante <$> df_filtered in
  (None ∉ col →
     ∃ rest, cont_options df_filtered = Return (Some "Todos" :: (Some <$> rest)) ∧
       (∀ s, s ∈ rest ↔ Some s ∈ col) ∧ NoDup rest ∧
       StronglySorted (λ a b, String.leb a b = true) rest) ∧
  (None ∈ col → (∃ s, Some s ∈ col) →
     ∃ e, cont_options df_filtered = Raises e) ∧
  (df_filtered ≠ [] → Forall (λ cell, cell = None) col →
     cont_options df_filtered = Return [Some "Todos"; None]).
Proof.
  intros col. subst col.
  destruct (series_unique_spec (contaminante <$> df_filtered)) as [Hnd Hmem].
  split_and!.
  - intros Hnone. exists (sorted_str (dropna (series_unique (contaminante <$> df_filtered)))).
    assert (Hnone' : None ∉ series_unique (contaminante <$> df_filtered))
      by (by rewrite Hmem).
    split_and!.
    + unfold cont_options, sorted_cells.
      destruct (series_unique (contaminante <$> df_filtered)) as [|a [|b rest]] eqn:Hu.
      * done.
      * destruct a as [s|]; [done|]. exfalso. apply Hnone'. by left.
      * by rewrite decide_False.
    + intros s. by rewrite sorted_str_perm, elem_of_dropna, Hmem.
    + rewrite sorted_str_perm. by apply NoDup_dropna.
    + apply sorted_str_sorted.
  - intros Hnone [s Hs]. apply Hmem in Hnone, Hs.
    unfold cont_options, sorted_cells.
    destruct (series_unique (contaminante <$> df_filtered)) as [|a [|b rest]] eqn:Hu.
    + inversion Hs.
    + apply list_elem_of_singleton in Hnone, Hs. congruence.
    + rewrite decide_True by done. by eexists.
  - intros Hne Hall. unfold cont_options.
    rewrite (series_unique_constant None); [done| |done].
    intros Hnil. by apply fmap_nil_inv in Hnil.
Qed.

(** A row without pollutant beside an ozone row: the options cannot be
    built. *)
Lemma cont_options_spec_witness :
  None ∈ contaminante <$> unnamed_pollutant_readings ∧
  (∃ s, Some s ∈ contaminante <$> unnamed_pollutant_readings) ∧
  ∃ e, cont_options unnamed_pollutant_readings = Raises e.
Proof.
  assert (Hnull : None ∈ contaminante <$> unnamed_pollutant_readings) by (by left).
  assert (Hsome : ∃ s, Some s ∈ contaminante <$> unnamed_pollutant_readings)
    by (exists "O3"; right; by left).
  split_and!; [exact Hnull|exact Hsome|].
  exact (proj1 (proj2 (cont_options_spec unnamed_pollutant_readings)) Hnull Hsome).
Defined.

End SelectorUse.

(** ** The mean card *)

Section MeanCard.

Local Open Scope Q_scope.

Implicit Types (df_filtered : list reading) (col : list (option Q)).

Lemma inject_Z_S (n : nat) : inject_Z (Z.of_nat (S n)) == inject_Z (Z.of_nat n) + 1.
Proof. rewrite Nat2Z.inj_succ, <- Z.add_1_r, inject_Z_plus. reflexivity. Qed.

Lemma inject_Z_length_pos {A : Type} (l : list A) :
  l ≠ [] → 0 < inject_Z (Z.of_nat (length l)).
Proof.
  intros Hne. destruct l as [|x l]; [done|].
  change 0 with (inject_Z 0). rewrite <- Zlt_Qlt. cbn [length]. lia.
Qed.

Lemma Qsum_le_bound (l : list Q) (b : Q) :
  (∀ v, v ∈ l → v <= b) → Qsum l <= inject_Z (Z.of_nat (length l)) * b.
Proof.
  induction l as [|q l IH]; intros Hall.
  - change (0 <= 0 * b). lra.
  - rewrite Qsum_cons. cbn [length]. rewrite inject_Z_S.
    assert (Hq : q <= b) by (apply Hall; by left).
    assert (Hl : Qsum l <= inject_Z (Z.of_nat (length l)) * b)
      by (apply IH; intros v Hv; apply Hall; by right).
    lra.
Qed.

Lemma Qsum_ge_bound (l : list Q) (b : Q) :
  (∀ v, v ∈ l → b <= v) → inject_Z (Z.of_nat (length l)) * b <= Qsum l.
Proof.
  induction l as [|q l IH]; intros Hall.
  - change (0 <= 0 * b). lra.
  - rewrite Qsum_cons. cbn [length]. rewrite inject_Z_S.
    assert (Hq : b <= q) by (apply Hall; by left).
    assert (Hl : inject_Z (Z.of_nat (length l)) * b <= Qsum l)
      by (apply IH; intros v Hv; apply Hall; by right).
    lra.
Qed.

(** The mean of a column with a valid cell is a number between any lower
    and any upper bound of the valid cells. *)
Lemma series_mean_bounds col :
  dropna col ≠ [] →
  ∃ mean, series_mean col = Fin mean ∧
    (∀ b, (∀ v, v ∈ dropna col → v <= b) → mean <= b) ∧
    (∀ b, (∀ v, v ∈ dropna col → b <= v) → b <= mean).
Proof.
  intros Hne. unfold series_mean. rewrite count_notna_dropna.
  destruct (decide (length (dropna col) = 0%nat)) as [Hz|Hz].
  { by apply length_zero_iff_nil in Hz. }
  eexists. split; [reflexivity|].
  pose proof (inject_Z_length_pos (dropna col) Hne) as Hpos.
  split; intros b Hb; rewrite nansum_dropna.
  - apply Qle_shift_div_r; [done|]. rewrite Qmult_comm. by apply Qsum_le_bound.
  - apply Qle_shift_div_l; [done|]. rewrite Qmult_comm. by apply Qsum_ge_bound.
Qed.

(** The band of a number is ranked, and a greater number has no lower
    rank. *)
Lemma band_rank_mono (q1 q2 : Q) :
  q1 <= q2 →
  ∃ r1 r2 : nat,
    rank_of (get_aqi_category_info (PyFloat (Fin q1))) = Some r1 ∧
    rank_of (get_aqi_category_info (PyFloat (Fin q2))) = Some r2 ∧
    (r1 ≤ r2)%nat.
Proof.
  intros Hle. rewrite !classify_Fin.
  destruct (Qle_bool q1 50) eqn:A50;
    [|destruct (Qle_bool q1 100) eqn:A100;
      [|destruct (Qle_bool q1 150) eqn:A150;
        [|destruct (Qle_bool q1 200) eqn:A200;
          [|destruct (Qle_bool q1 300) eqn:A300]]]];
  (destruct (Qle_bool q2 50) eqn:B50;
    [|destruct (Qle_bool q2 100) eqn:B100;
      [|destruct (Qle_bool q2 150) eqn:B150;
        [|destruct (Qle_bool q2 200) eqn:B200;
          [|destruct (Qle_bool q2 300) eqn:B300]]]]);
  repeat match goal with
         | H : Qle_bool _ _ = true |- _ => apply Qle_bool_true in H
         | H : Qle_bool _ _ = false |- _ => apply Qle_bool_false in H
         end;
  try (exfalso; lra);
  (eexists _, _; split_and!; [reflexivity|reflexivity|cbn; lia]).
Qed.

(** X7. The first metric card never raises. Without a valid AQI among the
    filtered rows it shows NaN and the band "Unknown". With one, it shows
    the mean and the band of the mean; the mean lies within any bounds of
    the valid readings, so readings that are all at most 50 give the card
    "Good", and the band of the mean is never more severe than the band of
    the maximum shown on the second card. *)
Theorem aqi_promedio_card_spec df_filtered :
  let values := dropna (aqi <$> df_filtered) in
  (values = [] → aqi_promedio_card df_filtered = Return (NaN, "⚪", "Unknown")%string) ∧
  (values ≠ [] →
     ∃ mean category emoji color top rank rank_top,
       aqi_promedio_card df_filtered = Return (Fin mean, emoji, category) ∧
       get_aqi_category_info (PyFloat (Fin mean)) = Return (category, color, emoji) ∧
       (∀ b, (∀ v, v ∈ values → v <= b) → mean <= b) ∧
       (∀ b, (∀ v, v ∈ values → b <= v) → b <= mean) ∧
       ((∀ v, v ∈ values → v <= 50) → category = "Good"%string) ∧
       max_aqi (compute_metrics df_filtered) = Fin top ∧
       mean <= top ∧
       severity_rank category = Some rank ∧
       rank_of (get_aqi_category_info (PyFloat (Fin top))) = Some rank_top ∧
       (rank ≤ rank_top)%nat).
Proof.
  intros values. subst values. split.
  - intros Hnil. unfold aqi_promedio_card, series_mean.
    rewrite count_notna_dropna, Hnil. reflexivity.
  - intros Hne.
    destruct (series_mean_bounds (aqi <$> df_filtered) Hne) as (mean & Hmean & Hup & Hlow).
    destruct (running_max_NegInf (aqi <$> df_filtered) Hne) as (top & Htop & Hin & Hall).
    assert (Hmax : max_aqi (compute_metrics df_filtered) = Fin top).
    { cbn [compute_metrics max_aqi]. unfold series_max. rewrite count_notna_dropna.
      destruct (decide (length (dropna (aqi <$> df_filtered)) = 0%nat)) as [Hz|Hz]; [|done].
      by apply length_zero_iff_nil in Hz. }
    assert (Hmt : mean <= top) by (by apply Hup).
    destruct (band_rank_mono mean top Hmt) as (r1 & r2 & Hr1 & Hr2 & Hr).
    destruct (get_aqi_category_info (PyFloat (Fin mean))) as [[[category color] emoji]|e] eqn:Hinfo;
      [|done].
    exists mean, category, emoji, color, top, r1, r2.
    split_and!; try done.
    + unfold aqi_promedio_card. rewrite Hmean, Hinfo. reflexivity.
    + intros Hgood. specialize (Hup 50 Hgood).
      rewrite classify_Fin in Hinfo. rewrite (Qle_bool_intro mean 50 Hup) in Hinfo.
      by injection Hinfo as <- _ _.
Qed.

(** On the two Austin readings, 45 and 55, the card shows a mean of at
    most 55. *)
Lemma aqi_promedio_card_spec_witness :
  dropna (aqi <$> austin_readings) ≠ [] ∧
  ∃ mean category emoji,
    aqi_promedio_card austin_readings = Return (Fin mean, emoji, category) ∧ mean <= 55.
Proof.
  assert (Hne : dropna (aqi <$> austin_readings) ≠ []) by discriminate.
  split; [exact Hne|].
  destruct (proj2 (aqi_promedio_card_spec austin_readings) Hne)
    as (mean & category & emoji & color & top & rank & rank_top & Hcard & _ & Hup & _).
  exists mean, category, emoji. split; [exact Hcard|].
  apply Hup. intros v Hv. cbn in Hv.
  repeat (apply elem_of_cons in Hv as [->|Hv]; [discriminate || reflexivity|]).
  inversion Hv.
Defined.

End MeanCard.

(** ** The table of recent readings *)

Section Table.

Implicit Types (df_filtered : list reading).

(** Calls that all return give the list of their results. *)
Lemma map_outcome_Forall2 {A B : Type} (f : A → outcome B) (P : A → B → Prop) (l : list A) :
  (∀ x, x ∈ l → ∃ y, f x = Return y ∧ P x y) →
  ∃ ys, map_outcome f l = Return ys ∧ Forall2 P l ys.
Proof.
  induction l as [|x l IH]; intros Hall; cbn [map_outcome].
  - exists []. by split.
  - destruct (Hall x) as (y & Hy & HP); [by left|].
    destruct IH as (ys & Hys & HF); [intros x' Hx'; apply Hall; by right|].
    exists (y :: ys). rewrite Hy, Hys. split; [done|]. by constructor.
Qed.

(** The classifier on a cell of the AQI column: it returns, with the white
    symbol exactly for a null cell. *)
Lemma classify_aqi_scalar (cell : option Q) :
  ∃ name colour symbol,
    get_aqi_category_info (aqi_scalar cell) = Return (name, colour, symbol) ∧
    (cell = None ↔ symbol = "⚪").
Proof.
  destruct cell as [q|]; cbn [aqi_scalar].
  - rewrite classify_Fin.
    repeat (destruct (Qle_bool q _); [eexists _, _, _; split; [reflexivity|]; by split|]).
    eexists _, _, _. split; [reflexivity|]. by split.
  - eexists _, _, _. split; [reflexivity|]. by split.
Qed.

Lemma StronglySorted_filter {A : Type} (R : relation A) (P : A → Prop)
    `{∀ x, Decision (P x)} (l : list A) :
  StronglySorted R l → StronglySorted R (filter P l).
Proof.
  induction 1 as [|x l Hsorted IH Hx]; [constructor|].
  destruct (decide (P x)).
  - rewrite filter_cons_True by done. constructor; [done|].
    rewrite Forall_forall in *. intros y [_ Hy]%list_elem_of_filter. by apply Hx.
  - by rewrite filter_cons_False.
Qed.

Lemma df_table_returns df_filtered :
  ∃ rows, df_table df_filtered = Return rows ∧ Forall2 row_of (take 20 df_filtered) rows.
Proof.
  unfold df_table. apply map_outcome_Forall2.
  intros r _. destruct (classify_aqi_scalar (aqi r)) as (name & colour & symbol & Hinfo & Hnull).
  eexists. rewrite Hinfo. split; [reflexivity|]. unfold row_of. cbn.
  split_and!; try done. by exists name, colour.
Qed.

(** X12. The table never raises. It has the first 20 filtered rows, or all of
    them when they are fewer, each with the cells of its six columns (the
    timestamp before it is rendered as text) and, in the added column, the
    symbol of the band of its AQI: the white symbol exactly when the AQI
    is null. *)
Theorem df_table_rows df_filtered :
  ∃ rows, df_table df_filtered = Return rows ∧
    length rows = (20 `min` length df_filtered)%nat ∧
    Forall2 (λ r row,
        t_fecha row = fecha r ∧ t_ciudad row = ciudad r ∧ t_estado row = estado r ∧
        t_contaminante row = contaminante r ∧ t_aqi row = aqi r ∧
        t_categoria row = categoria r ∧
        (∃ name colour,
            get_aqi_category_info (aqi_scalar (aqi r)) = Return (name, colour, t_Estado row)) ∧
        (aqi r = None ↔ t_Estado row = "⚪"))
      (take 20 df_filtered) rows.
Proof.
  destruct (df_table_returns df_filtered) as (rows & Hrows & HF).
  exists rows. split; [exact Hrows|]. split; [|exact HF].
  apply Forall2_length in HF. rewrite <- HF. apply length_take.
Qed.

(** X13. The table shows the newest readings. On the rows that the query
    returns and the filters keep, the table lists its rows from the newest
    to the oldest, and no filtered row left out of the table is newer than
    a row in it. *)
Theorem df_table_shows_newest (mediciones : list reading) (now hours : Z)
    (region pollutant : string) :
  let df_filtered :=
    apply_filters (fetch_latest_readings mediciones now hours) region pollutant in
  ∃ rows, df_table df_filtered = Return rows ∧
    t_fecha <$> rows = fecha <$> take 20 df_filtered ∧
    (∀ i j a b, rows !! i = Some a → rows !! j = Some b → (i < j)%nat →
       (t_fecha b ≤ t_fecha a)%Z) ∧
    (∀ row r, row ∈ rows → r ∈ drop 20 df_filtered → (fecha r ≤ t_fecha row)%Z).
Proof.
  intros df_filtered.
  assert (Hsorted : StronglySorted not_before df_filtered).
  { subst df_filtered. rewrite apply_filters_selects.
    apply StronglySorted_filter, fetch_latest_readings_sorted. }
  clearbody df_filtered.
  destruct (df_table_returns df_filtered) as (rows & Hrows & HF).
  assert (Hfecha : t_fecha <$> rows = fecha <$> take 20 df_filtered).
  { clear -HF. induction HF as [|r row l rows Hrow HF IH]; [done|].
    cbn [fmap list_fmap]. destruct Hrow as (-> & _). by rewrite IH. }
  exists rows. split; [exact Hrows|]. split; [exact Hfecha|].
  rewrite <- (take_drop 20 df_filtered) in Hsorted.
  set (shown := take 20 df_filtered) in *. set (hidden := drop 20 df_filtered) in *.
  split.
  - intros i j a b Ha Hb Hij.
    assert (Hfa : (fecha <$> shown) !! i = Some (t_fecha a))
      by (by rewrite <- Hfecha, list_lookup_fmap, Ha).
    assert (Hfb : (fecha <$> shown) !! j = Some (t_fecha b))
      by (by rewrite <- Hfecha, list_lookup_fmap, Hb).
    apply list_lookup_fmap_Some in Hfa as (ra & -> & Hra).
    apply list_lookup_fmap_Some in Hfb as (rb & -> & Hrb).
    apply StronglySorted_app_1_l in Hsorted.
    apply (sorted_lookup _ _ i j ra rb Hsorted Hra Hrb Hij).
  - intros row r Hrow Hr.
    assert (Hf : t_fecha row ∈ fecha <$> shown).
    { rewrite <- Hfecha. apply list_elem_of_fmap. by exists row. }
    apply list_elem_of_fmap in Hf as (r' & -> & Hr').
    apply (StronglySorted_app_1_elem_of _ _ _ r' r Hsorted Hr' Hr).
Qed.

End Table.

(** ** Summary by pollutant (earlier revision) *)

Section ResumenPorContaminante.

Implicit Types (df_filtered : list reading) (col : list (option string)).

(** A filter that no item passes gives the empty list. *)
Lemma filter_none {A : Type} (P : A → Prop) `{∀ x, Decision (P x)} (l : list A) :
  (∀ x, x ∈ l → ¬ P x) → filter P l = [].
Proof.
  induction l as [|x l IH]; intros Hno; [done|].
  rewrite filter_cons_False by (apply Hno; by left).
  apply IH. intros y Hy. apply Hno. by right.
Qed.

(** The rows a value of the pollutant column selects. *)
Lemma cell_is_rows (cont : option string) df_filtered :
  length (filter (λ r, cell_is cont (contaminante r)) df_filtered)
  = length (filter (cell_is cont) (contaminante <$> df_filtered)).
Proof.
  induction df_filtered as [|r l IH]; [done|].
  cbn [fmap list_fmap]. destruct (decide (cell_is cont (contaminante r))).
  - rewrite !filter_cons_True by done. cbn [length]. by rewrite IH.
  - by rewrite !filter_cons_False.
Qed.

(** In a list without repetition a member is found once. *)
Lemma NoDup_count_one {A : Type} `{EqDecision A} (x : A) (u : list A) :
  NoDup u → x ∈ u → length (filter (λ y, y = x) u) = 1%nat.
Proof.
  induction 1 as [|y u Hy Hnd IH]; intros Hx; [inversion Hx|].
  destruct (decide (y = x)) as [->|Hne].
  - rewrite filter_cons_True by done. cbn [length]. f_equal.
    apply length_zero_iff_nil, filter_none.
    intros z Hz ->. done.
  - rewrite filter_cons_False by done. apply IH.
    by apply elem_of_cons in Hx as [->|Hx].
Qed.

(** Over the distinct values of a column, the rows that the values select
    add up to the cells that are not null. *)
Lemma cell_is_total col (u : list (option string)) :
  NoDup u → (∀ x, x ∈ col → x ∈ u) →
  sum_list ((λ cont, length (filter (cell_is cont) col)) <$> u) = count_notna col.
Proof.
  intros Hnd. rewrite count_notna_dropna.
  induction col as [|[c|] col IH]; intros Hall.
  - cbn. clear. induction u as [|x u IH]; [done|]. cbn. by rewrite IH.
  - rewrite dropna_cons_Some. cbn [length]. rewrite <- IH by (intros x Hx; apply Hall; by right).
    assert (Hc : Some c ∈ u) by (apply Hall; by left).
    clear IH Hall. induction Hnd as [|x u Hx Hnd IH]; [inversion Hc|].
    cbn [fmap list_fmap sum_list sum_list_with].
    destruct (decide (x = Some c)) as [->|Hne].
    + rewrite filter_cons_True by done. cbn [length].
      assert (Hrest : ∀ l : list (option string), Some c ∉ l →
                sum_list ((λ cont, length (filter (cell_is cont) (Some c :: col))) <$> l)
                = sum_list ((λ cont, length (filter (cell_is cont) col)) <$> l)).
      { clear. induction l as [|y l IHl]; intros Hl; [done|].
        cbn [fmap list_fmap sum_list sum_list_with].
        rewrite filter_cons_False.
        - rewrite IHl; [done|]. intros H. apply Hl. by right.
        - destruct y as [d|]; [|by intros []]. intros [= ->]. apply Hl. by left. }
      rewrite Hrest by done. unfold id. lia.
    + rewrite filter_cons_False.
      * rewrite IH; [unfold id; lia|]. by apply elem_of_cons in Hc as [?|?].
      * destruct x as [d|]; [|by intros []]. intros [= ->]. done.
  - rewrite dropna_cons_None. rewrite <- IH by (intros x Hx; apply Hall; by right).
    f_equal. apply list_fmap_ext. intros i x _.
    rewrite filter_cons_False; [done|]. destruct x; [by intros ?|by intros []].
Qed.

(** X28. The per-pollutant summary of the earlier revision never raises. It
    has one line for each value of the pollutant column, null included, in
    order of first appearance. The line of a pollutant carries the number
    of filtered rows with that pollutant, which is at least one, and the
    mean AQI of those rows with the symbol of its band. The line of the
    null value, when there is one, counts no row and carries NaN and the
    white symbol, because no cell compares equal to [None]; so the counts
    of the lines add up to the rows whose pollutant is not null. *)
Theorem resumen_por_contaminante_spec df_filtered :
  ∃ lines, resumen_por_contaminante df_filtered = Return lines ∧
    (λ line, line.1.1.2) <$> lines = series_unique (contaminante <$> df_filtered) ∧
    (∀ symbol cont avg_aqi count, (symbol, cont, avg_aqi, count) ∈ lines →
       match cont with
       | None => count = 0%nat ∧ avg_aqi = NaN ∧ symbol = "⚪"
       | Some c =>
           count = occurrences c (contaminante <$> df_filtered) ∧ (0 < count)%nat ∧
           avg_aqi = series_mean (aqi <$> filter (λ r, contaminante r = Some c) df_filtered) ∧
           ∃ name colour,
             get_aqi_category_info (PyFloat avg_aqi) = Return (name, colour, symbol)
       end) ∧
    sum_list lines.*2 = count_notna (contaminante <$> df_filtered).
Proof.
  set (col := contaminante <$> df_filtered).
  set (line_of := λ (cont : option string) (line : string * option string * pyfloat * nat),
         line.1.1.2 = cont ∧
         line.2 = length (filter (cell_is cont) col) ∧
         line.1.2 = series_mean (aqi <$> filter (λ r, cell_is cont (contaminante r)) df_filtered) ∧
         ∃ name colour,
           get_aqi_category_info (PyFloat line.1.2) = Return (name, colour, line.1.1.1)).
  destruct (map_outcome_Forall2
    (λ cont,
       let df_cont := filter (λ r, cell_is cont (contaminante r)) df_filtered in
       let avg_aqi := series_mean (aqi <$> df_cont) in
       let count := length df_cont in
       info ← get_aqi_category_info (PyFloat avg_aqi);
       Return (info.2, cont, avg_aqi, count))
    line_of (series_unique col)) as (lines & Hlines & HF).
  { intros cont _. cbn zeta.
    set (avg := series_mean _).
    assert (Hret : ∃ name colour symbol,
              get_aqi_category_info (PyFloat avg) = Return (name, colour, symbol)).
    { destruct avg as [|q| |]; try (by eexists _, _, _).
      rewrite classify_Fin.
      repeat (destruct (Qle_bool q _); [by eexists _, _, _|]). by eexists _, _, _. }
    destruct Hret as (name & colour & symbol & Hinfo).
    eexists. rewrite Hinfo. split; [reflexivity|]. unfold line_of. cbn.
    split_and!; [done|apply cell_is_rows|done|by exists name, colour]. }
  destruct (series_unique_spec col) as [Hnd Hmem].
  exists lines. split; [exact Hlines|]. split_and!.
  - clear -HF. induction HF as [|cont line u lines Hline HF IH]; [done|].
    cbn [fmap list_fmap]. destruct Hline as (-> & _). by rewrite IH.
  - intros symbol cont avg_aqi count Hin.
    apply list_elem_of_lookup in Hin as [i Hi].
    destruct (Forall2_lookup_r _ _ _ _ _ HF Hi) as (cont' & Hcont' & Hline).
    destruct Hline as (Hc & Hcount & Havg & name & colour & Hinfo). cbn in Hc, Hcount, Havg, Hinfo.
    subst cont'. destruct cont as [c|].
    + assert (Hin : Some c ∈ col) by (apply Hmem; by eapply list_elem_of_lookup_2).
      split_and!.
      * by rewrite Hcount.
      * rewrite Hcount.
        assert (Hne : filter (cell_is (Some c)) col ≠ [])
          by (by apply (filter_nonempty _ _ (Some c))).
        destruct (filter (cell_is (Some c)) col); [done|cbn; lia].
      * by rewrite Havg.
      * by exists name, colour.
    + assert (Hnone : filter (λ r, cell_is None (contaminante r)) df_filtered = []).
      { apply filter_none. by intros r _ []. }
      rewrite Hnone in Havg. cbn in Havg. subst avg_aqi.
      split_and!; [|done|by injection Hinfo as _ _ <-].
      rewrite Hcount. apply length_zero_iff_nil, filter_none. by intros x _ [].
  - rewrite <- (cell_is_total col (series_unique col) Hnd) by (intros x; apply Hmem).
    f_equal. clear -HF. induction HF as [|cont line u lines Hline HF IH]; [done|].
    cbn [fmap list_fmap]. destruct Hline as (_ & -> & _). by rewrite IH.
Qed.

End ResumenPorContaminante.

(** ** Loading the models *)

Section ModelLoading.

Implicit Types (files : model_files).

(** Splits on what the two files are and evaluates the loader. *)
Ltac by_files files :=
  destruct files as [[[m1|e1]|] [[m2|e2]|]]; cbn.

(** The entries of the two models are always there, and hold a pipeline
    or [None]. *)
Lemma loaded_entries files :
  let d := (load_ml_models files).1 in
  d !! "modelo1" = Some (obj_of_modelo1 (modelo1 (models_of d))) ∧
  d !! "modelo2" = Some (obj_of_modelo2 (modelo2 (models_of d))).
Proof. by by_files files. Qed.

(** A model that is loaded has its name. *)
Lemma loaded_names files :
  let d := (load_ml_models files).1 in
  (is_Some (modelo1 (models_of d)) → d !! "modelo1_name" = Some (ObjStr "Random Forest")) ∧
  (is_Some (modelo2 (models_of d)) →
     d !! "modelo2_name" = Some (ObjStr "XGBoost + IsolationForest")).
Proof. by_files files; split; intros [m Hm]; done. Qed.

(** X20. Whatever the files are, the dictionary of [load_ml_models] has the
    keys ["modelo1"] and ["modelo2"], each holding a pipeline or [None], so
    indexing them never raises [KeyError]; a model that is not [None] has
    its name under its name key; and there is no key besides these
    four. *)
Theorem load_ml_models_keys files :
  let d := (load_ml_models files).1 in
  dict_index d "modelo1" = Return (obj_of_modelo1 (modelo1 (models_of d))) ∧
  dict_index d "modelo2" = Return (obj_of_modelo2 (modelo2 (models_of d))) ∧
  (is_Some (modelo1 (models_of d)) →
     dict_index d "modelo1_name" = Return (ObjStr "Random Forest")) ∧
  (is_Some (modelo2 (models_of d)) →
     dict_index d "modelo2_name" = Return (ObjStr "XGBoost + IsolationForest")) ∧
  dom d ⊆ ({[ "modelo1"; "modelo1_name"; "modelo2"; "modelo2_name" ]} : gset string).
Proof.
  intros d. subst d.
  destruct (loaded_entries files) as [H1 H2]. destruct (loaded_names files) as [Hn1 Hn2].
  cbn zeta in *. unfold dict_index. split_and!.
  - by rewrite H1.
  - by rewrite H2.
  - intros Hm. by rewrite (Hn1 Hm).
  - intros Hm. by rewrite (Hn2 Hm).
  - by_files files; rewrite ?dom_insert_L, ?dom_empty_L; set_solver.
Qed.

(** X21. Loading is all or nothing. A file that is missing only leaves its own
    model absent, but a file whose load raises leaves both models absent
    and reports the one exception: a model 1 that was loaded is dropped
    when the load of model 2 raises (its name stays in the dictionary), and
    when the load of model 1 raises the file of model 2 is not looked at.
    When no load raises, the models are those of the files that exist and
    nothing is reported. *)
Theorem load_ml_models_all_or_nothing files :
  let d := (load_ml_models files).1 in
  let errors := (load_ml_models files).2 in
  (∀ e, modelo1_pkl files = Some (Raises e) →
     d = <["modelo2" := ObjNone]> (<["modelo1" := ObjNone]> ∅) ∧
     errors = ["Error cargando modelos: " +:+ e]) ∧
  (∀ loaded1 e, modelo1_pkl files = Return <$> loaded1 →
     modelo2_pkl files = Some (Raises e) →
     models_of d = mk_models None None ∧
     errors = ["Error cargando modelos: " +:+ e] ∧
     (is_Some loaded1 → d !! "modelo1_name" = Some (ObjStr "Random Forest"))) ∧
  (∀ loaded1 loaded2, modelo1_pkl files = Return <$> loaded1 →
     modelo2_pkl files = Return <$> loaded2 →
     models_of d = mk_models loaded1 loaded2 ∧ errors = []) ∧
  (errors ≠ [] → models_of d = mk_models None None).
Proof.
  intros d errors. subst d errors. split_and!.
  - intros e He. destruct files as [f1 f2]. cbn in He. subst f1. done.
  - intros loaded1 e H1 H2. destruct files as [f1 f2]. cbn in H1, H2. subst f1 f2.
    destruct loaded1 as [m1|]; cbn; split_and!; try done; by intros [? ?].
  - intros loaded1 loaded2 H1 H2. destruct files as [f1 f2]. cbn in H1, H2. subst f1 f2.
    by destruct loaded1 as [m1|], loaded2 as [m2|].
  - by by_files files.
Qed.

(** With a model 1 that loads and a corrupt file of model 2, neither model
    is available. *)
Lemma load_ml_models_all_or_nothing_witness :
  modelo1_pkl corrupt_modelo2 = Return <$> Some steady_model1 ∧
  modelo2_pkl corrupt_modelo2 = Some (Raises "invalid load key") ∧
  models_of (load_ml_models corrupt_modelo2).1 = mk_models None None.
Proof.
  split_and!; [reflexivity|reflexivity|].
  exact (proj1 (proj1 (proj2 (load_ml_models_all_or_nothing corrupt_modelo2))
                  (Some steady_model1) "invalid load key" eq_refl eq_refl)).
Defined.

(** X22. The sidebar of the prediction view never raises on the dictionary of
    [load_ml_models]: it has two lines, for each model the success line
    with the model's name when the model is loaded and the failure line
    when it is not. *)
Theorem modelos_disponibles_spec files :
  let d := (load_ml_models files).1 in
  modelos_disponibles d =
    Return [ match modelo1 (models_of d) with
             | Some _ => Success (ObjStr "Random Forest")
             | None => Failure "❌ Modelo 1 no cargado"
             end;
             match modelo2 (models_of d) with
             | Some _ => Success (ObjStr "XGBoost + IsolationForest")
             | None => Failure "❌ Modelo 2 no cargado"
             end ].
Proof. by by_files files. Qed.

End ModelLoading.

(** ** Result cards *)

Section ResultCards.

Local Open Scope Q_scope.

Variables (ciudad estado contaminante : string) (latitud longitud : Q).
Variables (fecha : option Z) (categoria : option string) (now : Z).

(** The classifier returns on every float. *)
Lemma classify_float (v : pyfloat) :
  ∃ category colour symbol,
    get_aqi_category_info (PyFloat v) = Return (category, colour, symbol).
Proof.
  destruct v as [|q| |]; try (by eexists _, _, _).
  rewrite classify_Fin.
  repeat (destruct (Qle_bool q _); [by eexists _, _, _|]). by eexists _, _, _.
Qed.

(** X25. The result columns never raise on the dictionary of [load_ml_models]
    and the predictions made with its models. The column of a model that
    returned a number shows that number with the model's name and the band
    of the number; the column of a model that raised shows the message of
    its exception; and the column of a model that is not loaded shows the
    error line with the detail "Desconocido". *)
Theorem result_cards_spec (files : model_files) :
  let d := (load_ml_models files).1 in
  let ms := models_of d in
  let predictions :=
    (predict_aqi ms ciudad estado contaminante latitud longitud fecha categoria now).1 in
  (modelo1 ms = None →
     modelo1_card d predictions = Return (ErrorCard (PyStr "Desconocido"))) ∧
  (∀ m e, modelo1 ms = Some m →
     m (model1_frame ciudad estado contaminante latitud longitud) = Raises e →
     modelo1_card d predictions = Return (ErrorCard (PyStr e))) ∧
  (∀ m v, modelo1 ms = Some m →
     m (model1_frame ciudad estado contaminante latitud longitud) = Return v →
     ∃ category colour symbol,
       get_aqi_category_info (PyFloat v) = Return (category, colour, symbol) ∧
       modelo1_card d predictions
       = Return (PredictionCard (ObjStr "Random Forest") symbol (PyFloat v) category)) ∧
  (modelo2 ms = None →
     modelo2_card d predictions = Return (ErrorCard (PyStr "Desconocido"))) ∧
  (∀ m e, modelo2 ms = Some m →
     m (model2_frame ciudad estado contaminante latitud longitud fecha categoria now)
       = Raises e →
     modelo2_card d predictions = Return (ErrorCard (PyStr e))) ∧
  (∀ m v, modelo2 ms = Some m →
     m (model2_frame ciudad estado contaminante latitud longitud fecha categoria now)
       = Return v →
     ∃ category colour symbol,
       get_aqi_category_info (PyFloat v) = Return (category, colour, symbol) ∧
       modelo2_card d predictions
       = Return (PredictionCard (ObjStr "XGBoost + IsolationForest") symbol
                   (PyFloat v) category)).
Proof.
  intros d ms predictions.
  destruct (predict_aqi_lookup ciudad estado contaminante latitud longitud fecha categoria
              now ms) as (H1 & H1e & H2 & H2e & _ & _).
  fold predictions in H1, H1e, H2, H2e.
  destruct (loaded_names files) as [Hn1 Hn2]. fold d in Hn1, Hn2. fold ms in Hn1, Hn2.
  unfold modelo1_card, modelo2_card, result_card, dict_get, predictions_index, dict_index.
  split_and!.
  - intros Hm. rewrite Hm in H1, H1e. cbn in H1, H1e. by rewrite H1, H1e.
  - intros m e Hm Hr. rewrite Hm in H1, H1e. cbn in H1, H1e. rewrite Hr in H1, H1e.
    by rewrite H1, H1e.
  - intros m v Hm Hr. rewrite Hm in H1. cbn in H1. rewrite Hr in H1.
    destruct (classify_float v) as (category & colour & symbol & Hinfo).
    exists category, colour, symbol. split; [exact Hinfo|].
    rewrite H1. cbn [entry_of default is_None negb mbind outcome_bind]. rewrite Hinfo.
    cbn [mbind outcome_bind fst snd].
    rewrite Hn1 by (by rewrite Hm). done.
  - intros Hm. rewrite Hm in H2, H2e. cbn in H2, H2e. by rewrite H2, H2e.
  - intros m e Hm Hr. rewrite Hm in H2, H2e. cbn in H2, H2e. rewrite Hr in H2, H2e.
    by rewrite H2, H2e.
  - intros m v Hm Hr. rewrite Hm in H2. cbn in H2. rewrite Hr in H2.
    destruct (classify_float v) as (category & colour & symbol & Hinfo).
    exists category, colour, symbol. split; [exact Hinfo|].
    rewrite H2. cbn [entry_of default is_None negb mbind outcome_bind]. rewrite Hinfo.
    cbn [mbind outcome_bind fst snd].
    rewrite Hn2 by (by rewrite Hm). done.
Qed.

(** X26. The comparison block is shown exactly when both models are loaded and
    both returned a prediction. *)
Theorem comparison_shown_iff (ms : models) :
  let predictions :=
    (predict_aqi ms ciudad estado contaminante latitud longitud fecha categoria now).1 in
  is_Some (comparison predictions) ↔
  ∃ m1 m2 v1 v2,
    modelo1 ms = Some m1 ∧ modelo2 ms = Some m2 ∧
    m1 (model1_frame ciudad estado contaminante latitud longitud) = Return v1 ∧
    m2 (model2_frame ciudad estado contaminante latitud longitud fecha categoria now)
      = Return v2.
Proof.
  intros predictions.
  destruct (predict_aqi_lookup ciudad estado contaminante latitud longitud fecha categoria
              now ms) as (H1 & _ & H2 & _ & _ & _).
  fold predictions in H1, H2. unfold comparison, dict_get. rewrite H1, H2.
  destruct (modelo1 ms) as [m1|], (modelo2 ms) as [m2|]; cbn [mbind option_bind default].
  - destruct (m1 _) as [v1|e1] eqn:Hr1, (m2 _) as [v2|e2] eqn:Hr2; cbn.
    + split; [|by eexists]. intros _. by exists m1, m2, v1, v2.
    + split; [by intros [? ?]|]. intros (? & ? & ? & ? & [= <-] & [= <-] & _ & ?). congruence.
    + split; [by intros [? ?]|]. intros (? & ? & ? & ? & [= <-] & [= <-] & ? & _). congruence.
    + split; [by intros [? ?]|]. intros (? & ? & ? & ? & [= <-] & [= <-] & ? & _). congruence.
  - destruct (m1 _) as [v1|e1]; cbn; (split; [by intros [? ?]|]);
      by intros (? & ? & ? & ? & _ & ? & _).
  - split; [by intros [? ?]|]. by intros (? & ? & ? & ? & ? & _).
  - split; [by intros [? ?]|]. by intros (? & ? & ? & ? & ? & _).
Qed.

End ResultCards.

(** ** The agreement label on any two predictions *)

Section Agreement.

Local Open Scope Q_scope.






End Agreement.

(** ** What the predictions depend on *)

Section PredictionInputs.

Local Open Scope Q_scope.

Variables (ciudad estado contaminante : string) (latitud longitud : Q).

(** X23. What [predict_aqi] makes of its optional arguments. The entry of
    model 1 depends on neither the date, the category nor the clock: model
    1 is not shown them. For model 2, a category that is missing or empty
    is predicted as "Good", and a date that is missing as the current time,
    the clock mattering in no other case. *)
Theorem predict_aqi_optional_arguments (ms : models)
    (fecha fecha' : option Z) (categoria categoria' : option string) (now now' : Z) :
  let predict := predict_aqi ms ciudad estado contaminante latitud longitud in
  (predict fecha categoria now).1 !! "modelo1"%string
    = (predict fecha' categoria' now').1 !! "modelo1"%string ∧
  (predict fecha categoria now).1 !! "modelo1_error"%string
    = (predict fecha' categoria' now').1 !! "modelo1_error"%string ∧
  predict fecha None now = predict fecha (Some "Good"%string) now ∧
  predict fecha (Some ""%string) now = predict fecha (Some "Good"%string) now ∧
  predict None categoria now = predict (Some now) categoria now ∧
  (∀ f, predict (Some f) categoria now = predict (Some f) categoria now').
Proof.
  intros predict. subst predict.
  destruct (predict_aqi_lookup ciudad estado contaminante latitud longitud fecha categoria
              now ms) as (H1 & H1e & _).
  destruct (predict_aqi_lookup ciudad estado contaminante latitud longitud fecha' categoria'
              now' ms) as (H1' & H1e' & _).
  split_and!; try reflexivity.
  - by rewrite H1, H1'.
  - by rewrite H1e, H1e'.
Qed.

(** X24. The prediction tab as a whole. It reports unavailability exactly when
    neither model is loaded; otherwise it waits for the button, calling no
    model until it is pressed. Once pressed, it calls each loaded model
    once, model 1 first, with the current time as the date, and shows the
    comparison that belongs to the predictions. When model 2 is not loaded
    the category selector is not drawn and the category plays no part. *)
Theorem predicciones_tab_spec (ms : models) (clicked : bool)
    (selected_categoria : option string) (now : Z) :
  let tab := predicciones_tab ms clicked ciudad estado contaminante latitud longitud
               selected_categoria now in
  (tab.1 = Unavailable ↔ modelo1 ms = None ∧ modelo2 ms = None) ∧
  (tab.2 ≠ [] → clicked = true) ∧
  (clicked = false → ¬ (modelo1 ms = None ∧ modelo2 ms = None) → tab = (Waiting, [])) ∧
  (clicked = true → ¬ (modelo1 ms = None ∧ modelo2 ms = None) →
     tab.2 = loaded_keys ms ∧
     ∃ predictions,
       tab.1 = Predicted predictions (comparison predictions) ∧
       (∀ m2, modelo2 ms = Some m2 →
          predictions = (predict_aqi ms ciudad estado contaminante latitud longitud
                           (Some now) selected_categoria now).1) ∧
       (modelo2 ms = None →
          predictions = (predict_aqi ms ciudad estado contaminante latitud longitud
                           None None now).1)) ∧
  (modelo2 ms = None →
     ∀ other, tab = predicciones_tab ms clicked ciudad estado contaminante
                      latitud longitud other now).
Proof.
  intros tab. subst tab. unfold predicciones_tab.
  destruct (decide (modelo1 ms = None ∧ modelo2 ms = None)) as [Hnone|Hsome].
  - split_and!; done.
  - destruct clicked.
    + destruct (predict_aqi_lookup ciudad estado contaminante latitud longitud None
                  (match modelo2 ms with Some _ => selected_categoria | None => None end)
                  now ms) as (_ & _ & _ & _ & Hcalls & _).
      destruct (predict_aqi _ _ _ _ _ _ _ _ _) as [predictions calls] eqn:Hp.
      cbn [fst snd] in *. split_and!.
      * split; [done|]. intros H. by destruct Hsome.
      * done.
      * done.
      * intros _ _. split; [exact Hcalls|]. exists predictions. split; [done|].
        split.
        -- intros m2 Hm2. rewrite Hm2 in Hp.
           change (predict_aqi ms ciudad estado contaminante latitud longitud
                     (Some now) selected_categoria now)
             with (predict_aqi ms ciudad estado contaminante latitud longitud
                     None selected_categoria now).
           by rewrite Hp.
        -- intros Hm2. rewrite Hm2 in Hp. by rewrite Hp.
      * intros Hm2 other. by rewrite Hm2 in Hp |- *; rewrite Hp.
    + split_and!; try done.
Qed.

End PredictionInputs.

(** ** Invariants of the refresh loop *)

Section LoopInvariants.

Variable cfg : config.
Variable store : nat → list reading.



(** Once a run has ended, allowing more passes changes nothing: the
    result with more fuel is the same run. *)
Theorem run_fuel_stable (fuel fuel' tick : nat) :
  (run fuel cfg store tick).2 ≠ Sleeping → (fuel ≤ fuel')%nat →
  run fuel' cfg store tick = run fuel cfg store tick.
Proof.
  revert fuel' tick. induction fuel as [|fuel IH]; intros fuel' tick Hend Hle.
  - done.
  - destruct fuel' as [|fuel']; [lia|]. cbn [run] in *.
    destruct (loop_body cfg (store tick)) as [events [|]]; cbn [fst snd] in *; [done|].
    rewrite (IH fuel' (S tick)); [done|done|lia].
Qed.


End LoopInvariants.

(** The run on the draining store has ended after three passes; five
    allowed passes give the same run. *)
Lemma run_fuel_stable_witness :
  (run 3 (austin_config true) draining_store 0).2 ≠ Sleeping ∧ (3 ≤ 5)%nat ∧
  run 5 (austin_config true) draining_store 0 = run 3 (austin_config true) draining_store 0.
Proof.
  assert (Hend : (run 3 (austin_config true) draining_store 0).2 ≠ Sleeping) by discriminate.
  assert (Hle : (3 ≤ 5)%nat) by lia.
  split_and!; [exact Hend|exact Hle|].
  exact (run_fuel_stable (austin_config true) draining_store 3 5 0 Hend Hle).
Defined.


(** ** Order of the category distribution *)

Section DistributionOrder.

Implicit Types (df_filtered : list reading) (counts : list (string * nat)).

Lemma insert_by_count_sorted (p : string * nat) counts :
  StronglySorted (λ a b, b.2 ≤ a.2)%nat counts →
  StronglySorted (λ a b, b.2 ≤ a.2)%nat (insert_by_count p counts).
Proof.
  induction 1 as [|q counts Hsorted IH Hq]; cbn.
  - repeat constructor.
  - destruct (decide (q.2 ≤ p.2)%nat) as [Hle|Hgt].
    + constructor; [by constructor|]. constructor; [done|].
      eapply Forall_impl; [exact Hq|]. intros r Hr. cbn in *. lia.
    + constructor; [done|]. rewrite insert_by_count_perm.
      constructor; [|done]. cbn. lia.
Qed.

Lemma value_counts_sorted (col : list (option string)) :
  StronglySorted (λ a b, b.2 ≤ a.2)%nat (value_counts col).
Proof.
  unfold value_counts, sort_by_count.
  induction (tally col) as [|p counts IH]; cbn; [constructor|].
  by apply insert_by_count_sorted.
Qed.

(** X8. The category lines come with the most frequent label first: the
    counts never increase down the list, and no label occurs in more rows
    than the label of the first line. *)
Theorem categoria_lines_most_frequent_first df_filtered :
  let lines := categoria_lines df_filtered in
  (∀ i j a b, lines !! i = Some a → lines !! j = Some b → (i < j)%nat →
     (b.1.2 ≤ a.1.2)%nat) ∧
  (∀ cat count share, head lines = Some (cat, count, share) →
     ∀ other, (occurrences other (categoria <$> df_filtered) ≤ count)%nat).
Proof.
  intros lines. subst lines.
  pose proof (value_counts_sorted (categoria <$> df_filtered)) as Hsorted.
  destruct (value_counts_spec (categoria <$> df_filtered)) as (_ & Hmem & _).
  assert (Hitem : ∀ i a, categoria_lines df_filtered !! i = Some a →
                         value_counts (categoria <$> df_filtered) !! i = Some a.1).
  { intros i a Ha. rewrite <- categoria_lines_items, list_lookup_fmap, Ha. done. }
  split.
  - intros i j a b Ha Hb Hij. apply Hitem in Ha, Hb.
    apply (sorted_lookup _ _ i j a.1 b.1 Hsorted Ha Hb Hij).
  - intros cat count share Hhead other.
    destruct (decide (occurrences other (categoria <$> df_filtered) = 0%nat)) as [->|Hpos]; [lia|].
    assert (Hin : (other, occurrences other (categoria <$> df_filtered))
                  ∈ value_counts (categoria <$> df_filtered)).
    { apply Hmem. split; [done|lia]. }
    apply list_elem_of_lookup in Hin as [j Hj].
    rewrite head_lookup in Hhead. apply Hitem in Hhead. cbn in Hhead.
    destruct j as [|j].
    + rewrite Hhead in Hj. injection Hj as _ <-. lia.
    + apply (sorted_lookup _ _ 0 (S j) _ _ Hsorted Hhead Hj). lia.
Qed.

End DistributionOrder.

(** ** The snapshot per city *)

Section Snapshot.

Implicit Types (df_filtered : list reading).

(** X10. On readings without null cells the snapshot is made of readings: each
    of its rows is a reading of the input, and the newest of its city. *)
Theorem df_map_of_complete_readings df_filtered :
  Forall complete df_filtered →
  ∀ row, row ∈ df_map df_filtered →
    row ∈ df_filtered ∧
    ∀ x, x ∈ df_filtered → ciudad x = ciudad row → (fecha x ≤ fecha row)%Z.
Proof.
  intros Hall row Hrow. unfold df_map in Hrow.
  set (sorted := sort_values_fecha df_filtered) in *.
  pose proof (sort_values_fecha_perm df_filtered) as Hperm. fold sorted in Hperm.
  pose proof (sort_values_fecha_sorted df_filtered) as Hsorted. fold sorted in Hsorted.
  apply list_elem_of_omap in Hrow as (c & Hc & Hrow).
  destruct (last (filter (λ r, ciudad r = Some c) sorted)) as [r|] eqn:Hlast;
    [|by unfold group_last in Hrow; rewrite Hlast in Hrow].
  pose proof (last_Some_elem_of _ _ Hlast) as Hr.
  apply list_elem_of_filter in Hr as [Hrc Hr].
  assert (Hcomplete : complete r).
  { rewrite Forall_forall in Hall. apply Hall. by rewrite <- Hperm. }
  pose proof Hlast as Hsnoc. apply last_Some in Hsnoc as [group Hgroup].
  rewrite Hgroup, (group_last_complete c group r Hcomplete Hrc) in Hrow.
  injection Hrow as <-. split; [by rewrite <- Hperm|].
  intros x Hx Hxc. rewrite Hrc in Hxc.
  apply last_filter_Some in Hlast as (l1 & l2 & Hsplit & Hrest).
  rewrite <- Hperm, Hsplit in Hx. rewrite Hsplit in Hsorted.
  apply elem_of_app in Hx as [Hx|Hx].
  - by apply (sorted_before l1 l2 r x).
  - apply elem_of_cons in Hx as [->|Hx]; [done|].
    rewrite Forall_forall in Hrest. by destruct (Hrest x Hx).
Qed.

(** Two complete readings of Austin: the snapshot is the newer one. *)
Lemma df_map_of_complete_readings_witness :
  Forall complete complete_readings ∧
  ∀ row, row ∈ df_map complete_readings → row ∈ complete_readings.
Proof.
  assert (Hall : Forall complete complete_readings).
  { repeat constructor; by eexists. }
  split; [exact Hall|].
  intros row Hrow. exact (proj1 (df_map_of_complete_readings complete_readings Hall row Hrow)).
Defined.

(** X11. The map has one point for each city counted by the metric
    "Ciudades", and lists the cities in strictly ascending order. *)
Theorem df_map_size df_filtered :
  length (df_map df_filtered) = ciudades (compute_metrics df_filtered) ∧
  ∃ cities, ciudad <$> df_map df_filtered = Some <$> cities ∧
    ∀ i j a b, cities !! i = Some a → cities !! j = Some b → (i < j)%nat →
      String.ltb a b = true.
Proof.
  pose proof (df_map_cities df_filtered) as Hcols.
  set (sorted := sort_values_fecha df_filtered) in *.
  pose proof (sort_values_fecha_perm df_filtered) as Hperm. fold sorted in Hperm.
  destruct (group_keys_spec sorted) as [Hnd Hkeys].
  split.
  - rewrite <- (length_fmap ciudad), Hcols, length_fmap.
    cbn [compute_metrics ciudades]. unfold series_nunique.
    apply Permutation_length, NoDup_Permutation; [done| |].
    + apply NoDup_dropna, series_unique_spec.
    + intros c. rewrite Hkeys, elem_of_dropna.
      destruct (series_unique_spec (ciudad <$> df_filtered)) as [_ Hmem].
      by rewrite Hmem, Hperm.
  - exists (group_keys sorted). split; [exact Hcols|].
    intros i j a b Ha Hb Hij. apply String_leb_ltb.
    + assert (Hs : StronglySorted (λ a b, String.leb a b = true) (group_keys sorted))
        by apply (sorted_str_sorted _).
      apply (sorted_lookup _ _ i j a b Hs Ha Hb Hij).
    + intros ->. pose proof (NoDup_lookup _ i j b Hnd Ha Hb). lia.
Qed.

End Snapshot.

(** ** Filtering and the metrics *)

Section Narrowing.

Local Open Scope Q_scope.

Implicit Types (R : list reading) (region pollutant : string).

(** X5. Filtering again with the same selectors changes nothing, filtering a
    concatenation is filtering its parts, and every row that is kept holds
    the selected state and the selected pollutant. *)
Theorem apply_filters_idempotent R R' region pollutant :
  apply_filters (apply_filters R region pollutant) region pollutant
    = apply_filters R region pollutant ∧
  apply_filters (R ++ R') region pollutant
    = (apply_filters R region pollutant ++ apply_filters R' region pollutant)%list ∧
  (region ≠ "Todos"%string →
     Forall (λ r, estado r = Some region) (apply_filters R region pollutant)) ∧
  (pollutant ≠ "Todos"%string →
     Forall (λ r, contaminante r = Some pollutant) (apply_filters R region pollutant)).
Proof.
  rewrite !apply_filters_selects. split_and!.
  - rewrite list_filter_filter. apply list_filter_iff. intros r. tauto.
  - apply filter_app.
  - intros Hne. apply Forall_forall. intros r [[_ [?|?]] _]%list_elem_of_filter; done.
  - intros Hne. apply Forall_forall. intros r [[[?|?] _] _]%list_elem_of_filter; done.
Qed.

(** Texas and ozone selected on the Austin readings. *)
Lemma apply_filters_idempotent_witness :
  "TX"%string ≠ "Todos"%string ∧
  Forall (λ r, estado r = Some "TX"%string) (apply_filters austin_readings "TX" "O3").
Proof.
  assert (Hne : "TX"%string ≠ "Todos"%string) by discriminate.
  split; [exact Hne|].
  exact (proj1 (proj2 (proj2 (apply_filters_idempotent austin_readings [] "TX" "O3"))) Hne).
Defined.

Lemma dropna_fmap_filter {A : Type} (f : reading → option A) (P : reading → Prop)
    `{∀ r, Decision (P r)} R (x : A) :
  x ∈ dropna (f <$> filter P R) → x ∈ dropna (f <$> R).
Proof.
  rewrite !elem_of_dropna, !list_elem_of_fmap.
  intros (r & Hx & [_ Hr]%list_elem_of_filter). by exists r.
Qed.

(** X6. Narrowing the selection never raises a metric: the filtered rows are
    no more than the rows, their cities and states no more than those of
    the rows, and their greatest AQI, when they have one, is a number no
    greater than the greatest AQI of the rows. *)
Theorem filters_narrow_metrics R region pollutant :
  let all := compute_metrics R in
  let narrowed := compute_metrics (apply_filters R region pollutant) in
  (total_lecturas narrowed ≤ total_lecturas all)%nat ∧
  (ciudades narrowed ≤ ciudades all)%nat ∧
  (estados narrowed ≤ estados all)%nat ∧
  (ciudades narrowed ≤ total_lecturas narrowed)%nat ∧
  (∀ top, max_aqi narrowed = Fin top →
     ∃ top', max_aqi all = Fin top' ∧ top <= top').
Proof.
  intros all narrowed. subst all narrowed.
  cbn [compute_metrics total_lecturas ciudades estados max_aqi].
  rewrite !apply_filters_selects.
  set (P := λ r, selects pollutant (contaminante r) ∧ selects region (estado r)).
  split_and!.
  - apply length_filter.
  - rewrite !series_nunique_size. apply subseteq_size. intros c.
    rewrite !elem_of_list_to_set. apply dropna_fmap_filter.
  - rewrite !series_nunique_size. apply subseteq_size. intros c.
    rewrite !elem_of_list_to_set. apply dropna_fmap_filter.
  - unfold series_nunique.
    destruct (series_unique_spec (ciudad <$> filter P R)) as [Hnd Hmem].
    rewrite <- (length_fmap ciudad (filter P R)).
    transitivity (length (series_unique (ciudad <$> filter P R))).
    + rewrite <- count_notna_dropna. unfold count_notna. lia.
    + apply submseteq_length, NoDup_submseteq; [done|]. intros x. by rewrite Hmem.
  - intros top Htop. unfold series_max in Htop. rewrite count_notna_dropna in Htop.
    destruct (decide (length (dropna (aqi <$> filter P R)) = 0%nat)) as [|Hne]; [done|].
    assert (HneF : dropna (aqi <$> filter P R) ≠ [])
      by (intros Hnil; apply Hne; by rewrite Hnil).
    destruct (running_max_NegInf _ HneF) as (q & Hq & Hin & _).
    rewrite Hq in Htop. injection Htop as <-.
    apply dropna_fmap_filter in Hin.
    assert (HneR : dropna (aqi <$> R) ≠ []) by (intros Hnil; rewrite Hnil in Hin; inversion Hin).
    destruct (running_max_NegInf _ HneR) as (q' & Hq' & _ & Hall).
    exists q'. split; [|by apply Hall].
    unfold series_max. rewrite count_notna_dropna.
    destruct (decide (length (dropna (aqi <$> R)) = 0%nat)) as [Hz|_]; [|done].
    by apply length_zero_iff_nil in Hz.
Qed.

End Narrowing.

(** ** The summary by state *)

Section StateSummary.

Local Open Scope Q_scope.

Implicit Types (mediciones rows : list reading) (now hours : Z).

Lemma insert_by_promedio_perm (row : state_summary) (l : list state_summary) :
  insert_by_promedio row l ≡ₚ row :: l.
Proof.
  induction l as [|x l IH]; cbn; [done|].
  destruct (promedio_desc row x); [done|].
  rewrite IH. apply Permutation_swap.
Qed.

Lemma promedio_desc_trans (a b c : state_summary) :
  promedio_desc a b = true → promedio_desc b c = true → promedio_desc a c = true.
Proof.
  unfold promedio_desc.
  destruct (s_aqi_promedio a) as [x|], (s_aqi_promedio b) as [y|],
    (s_aqi_promedio c) as [z|]; try done.
  intros Hyx%Qle_bool_true Hzy%Qle_bool_true. apply Qle_bool_intro. lra.
Qed.

Lemma promedio_desc_total (a b : state_summary) :
  promedio_desc a b = false → promedio_desc b a = true.
Proof.
  unfold promedio_desc.
  destruct (s_aqi_promedio a) as [x|], (s_aqi_promedio b) as [y|]; try done.
  intros Hyx%Qle_bool_false. apply Qle_bool_intro. lra.
Qed.

Lemma insert_by_promedio_sorted (row : state_summary) (l : list state_summary) :
  StronglySorted (λ a b, promedio_desc a b = true) l →
  StronglySorted (λ a b, promedio_desc a b = true) (insert_by_promedio row l).
Proof.
  induction 1 as [|x l Hsorted IH Hx]; cbn.
  - repeat constructor.
  - destruct (promedio_desc row x) eqn:Hrx.
    + constructor; [by constructor|]. constructor; [done|].
      eapply Forall_impl; [exact Hx|]. intros y Hy. by eapply promedio_desc_trans.
    + constructor; [done|]. rewrite insert_by_promedio_perm.
      constructor; [|done]. by apply promedio_desc_total.
Qed.






(** The rows the summary is made from, and its rows before the sort. *)
Lemma fetch_summary_by_state_perm mediciones now hours :
  let rows := filter (λ r, in_window now hours r ∧ aqi r ≠ None) mediciones in
  fetch_summary_by_state mediciones now hours ≡ₚ
    (λ e, let group := filter (λ r, estado r = e) rows in
          mk_state_summary e (length group) (sql_avg (aqi <$> group))
            (sql_max (aqi <$> group)) (sql_min (aqi <$> group)))
      <$> series_unique (estado <$> rows).
Proof.
  intros rows. unfold fetch_summary_by_state. fold rows.
  induction (_ <$> series_unique (estado <$> rows)) as [|row l IH]; cbn; [done|].
  by rewrite insert_by_promedio_perm, IH.
Qed.


Lemma fetch_summary_by_state_sorted mediciones now hours :
  StronglySorted (λ a b, promedio_desc a b = true)
    (fetch_summary_by_state mediciones now hours).
Proof.
  unfold fetch_summary_by_state.
  induction (_ <$> series_unique _) as [|row l IH]; cbn; [constructor|].
  by apply insert_by_promedio_sorted.
Qed.




(** X17. The ranking chart is drawn exactly when some reading of the window has
    an AQI. It shows at most ten states, the first of the summary, and no
    state that is left out has a higher mean than a state that is
    shown. *)
Theorem ranking_chart_top_ten mediciones now hours :
  let summary := fetch_summary_by_state mediciones now hours in
  (ranking_chart summary = None ↔
   ∀ r, r ∈ mediciones → in_window now hours r → aqi r = None) ∧
  (∀ shown, ranking_chart summary = Some shown →
     shown = take 10 summary ∧ (length shown ≤ 10)%nat ∧
     ∀ a b x y, a ∈ shown → b ∈ drop 10 summary →
       s_aqi_promedio a = Some x → s_aqi_promedio b = Some y → y <= x).
Proof.
  intros summary.
  pose proof (fetch_summary_by_state_perm mediciones now hours) as Hperm.
  cbn zeta in Hperm. fold summary in Hperm.
  set (rows := filter (λ r, in_window now hours r ∧ aqi r ≠ None) mediciones) in *.
  destruct (series_unique_spec (estado <$> rows)) as [_ Hmem].
  unfold ranking_chart. split.
  - destruct (decide (summary = [])) as [Hnil|Hne].
    + split; [|done]. intros _ r Hr Hw.
      destruct (aqi r) as [q|] eqn:Hq; [|done]. exfalso.
      assert (Hin : estado r ∈ series_unique (estado <$> rows)).
      { apply Hmem, list_elem_of_fmap. exists r. split; [done|].
        apply list_elem_of_filter. split; [|done]. split; [done|]. by rewrite Hq. }
      rewrite Hnil in Hperm. apply Permutation_nil_l in Hperm. symmetry in Hperm.
      apply fmap_nil_inv in Hperm. rewrite Hperm in Hin. inversion Hin.
    + split; [done|]. intros Hnone. exfalso. apply Hne.
      assert (Hrows : rows = []).
      { apply filter_none. intros r Hr [Hw Hq]. by apply Hq, Hnone. }
      rewrite Hrows in Hperm. cbn in Hperm. by apply Permutation_nil_r in Hperm.
  - intros shown Hshown. destruct (decide (summary = [])); [done|].
    injection Hshown as <-. split_and!; [done|rewrite length_take; lia|].
    intros a b x y Ha Hb Hx Hy.
    pose proof (fetch_summary_by_state_sorted mediciones now hours) as Hsorted.
    fold summary in Hsorted. rewrite <- (take_drop 10 summary) in Hsorted.
    pose proof (StronglySorted_app_1_elem_of _ _ _ a b Hsorted Ha Hb) as Hab.
    unfold promedio_desc in Hab. rewrite Hx, Hy in Hab. by apply Qle_bool_true.
Qed.

End StateSummary.

(** ** Names, colours and symbols of the bands *)

Section BandSymbols.

(** The seven results of the classifier. *)
Lemma classifier_results (v : pyval) (info : string * string * string) :
  get_aqi_category_info v = Return info →
  info ∈ [ ("Unknown", "#808080", "⚪"); ("Good", "#00E400", "🟢");
           ("Moderate", "#FFFF00", "🟡");
           ("Unhealthy for Sensitive Groups", "#FF7E00", "🟠");
           ("Unhealthy", "#FF0000", "🔴"); ("Very Unhealthy", "#8F3F97", "🟣");
           ("Hazardous", "#7E0023", "🟤") ].
Proof.
  destruct v as [|f|s].
  - intros [= <-]. repeat constructor.
  - destruct f as [|q| |]; try (intros [= <-]; repeat constructor).
    rewrite classify_Fin.
    repeat (destruct (Qle_bool q _); [intros [= <-]; repeat constructor|]).
    intros [= <-]; repeat constructor.
  - intros H. discriminate H.
Qed.

(** X29. The classifier gives each band its own colour and its own symbol:
    two results have the same symbol exactly when they have the same name,
    and the same colour exactly when they have the same name. So the symbol
    alone, as in the last column of the table, tells the band. *)
Theorem band_symbols_distinct (v1 v2 : pyval)
    (name1 colour1 symbol1 name2 colour2 symbol2 : string) :
  get_aqi_category_info v1 = Return (name1, colour1, symbol1) →
  get_aqi_category_info v2 = Return (name2, colour2, symbol2) →
  (symbol1 = symbol2 ↔ name1 = name2) ∧ (colour1 = colour2 ↔ name1 = name2).
Proof.
  intros H1%classifier_results H2%classifier_results.
  repeat (apply elem_of_cons in H1 as [[= -> -> ->]|H1]);
    [..|by apply elem_of_nil in H1];
    (repeat (apply elem_of_cons in H2 as [[= -> -> ->]|H2]);
       [..|by apply elem_of_nil in H2]);
    split; split; (done || discriminate).
Qed.

(** 42 and 160 are in different bands and get different symbols. *)
Lemma band_symbols_distinct_witness :
  ("🟢" = "🔴" ↔ "Good" = "Unhealthy") ∧ ("#00E400" = "#FF0000" ↔ "Good" = "Unhealthy").
Proof.
  exact (band_symbols_distinct (PyFloat (Fin 42)) (PyFloat (Fin 160))
           _ _ _ _ _ _ eq_refl eq_refl).
Defined.

End BandSymbols.
